(** * Sonatel API client: token cache and authenticated request dispatcher

    A shallow embedding of [src/sonatel-api.js] (class [SonatelAPI]: the
    constructor, [_log], [_getToken], [request] and the verb shorthands),
    of the SMS, USSD and payment services and of [createClient], over an
    explicit model of the JavaScript values the code handles and of the
    platform it talks to (clock, [fetch], console).

    Methods are state-passing functions on the client object and the
    world, returning a value or the message of the [Error] thrown. The
    properties are stated for every engine and every network; the last
    part runs them on concrete scripts. *)

From Stdlib Require Import ZArith Ascii String List Lia Bool.
From stdpp Require Import base gmap strings pretty.
Import ListNotations.

Set Warnings "-register-all".

Local Open Scope string_scope.
Local Open Scope Z_scope.

(** ** JavaScript values *)

(** The values the client handles: [undefined], [null], booleans, numbers,
    strings, arrays and plain objects (as produced by [JSON.parse], plus
    [undefined] for an absent property). A number is a double: [JNum n]
    is the integer [n], and [JFrac m e] is [m / 2^e], the form of every
    finite double that is not an integer ([m] odd, [e] at least 1). An
    object lists its own properties in the order in which they are
    enumerated, each key once; none of them is callable. *)
Inductive JSValue : Type :=
| JUndefined
| JNull
| JBool (b : bool)
| JNum (n : Z)
| JFrac (m : Z) (e : nat)
| JStr (s : string)
| JArr (items : list JSValue)
| JObj (props : list (string * JSValue)).

(** Result of arithmetic: an integer, [m / 2^e] with [m] odd and [e] at
    least 1, or [NaN]. *)
Inductive Num : Type :=
| Int (n : Z)
| Frac (m : Z) (e : nat)
| NaN.

(** A [Date] object: a time value in milliseconds, or an Invalid Date. *)
Inductive Date : Type :=
| ValidDate (ms : Z)
| InvalidDate.

(** A call either returns a value or throws an [Error]; every error the
    client meets or raises is used through its [message] only. *)
Inductive Result (A : Type) : Type :=
| Ok (a : A)
| Err (message : string).
Arguments Ok {A} a.
Arguments Err {A} message.

(** The parts of the platform that the code relies on and that are left
    open here: the numeric value of a string ([StringToNumber] of
    ECMAScript), the text of a number that is not an integer or is of
    magnitude above 2^53 ([Number::toString], which prints the shortest
    digits that read back, in exponent form from 10^21 on), and the
    form-urlencoded text of a list of pairs
    ([URLSearchParams.toString]). *)
Class Engine : Type := {
  StringToNumber : string -> Num;
  NumberToString : Num -> string;
  URLSearchParams_toString : list (string * string) -> string
}.

(** ToBoolean. *)
Definition truthy (v : JSValue) : bool :=
  match v with
  | JUndefined | JNull => false
  | JBool b => b
  | JNum n => negb (n =? 0)
  | JFrac m _ => negb (m =? 0)
  | JStr s => negb (String.eqb s "")
  | JArr _ | JObj _ => true
  end.

(** [a || b]. *)
Definition js_or (a b : JSValue) : JSValue :=
  if truthy a then a else b.

(** [m / 2^e] in lowest terms. *)
Fixpoint normalize (m : Z) (e : nat) : Num :=
  match e with
  | O => Int m
  | S e' => if Z.even m then normalize (Z.div2 m) e' else Frac m e
  end.

(** [m / 2^k] rounded to the nearest integer, a tie to the even one. *)
Definition round_half_even (m k : Z) : Z :=
  let q := Z.shiftr m k in
  let r := m - Z.shiftl q k in
  let half := Z.shiftl 1 (k - 1) in
  if k <=? 0 then m
  else if r <? half then q
  else if half <? r then q + 1
  else if Z.even q then q
  else q + 1.

(** The double nearest to [m / 2^e]: at most 53 significant bits are
    kept (the exponent of a double is taken to be unbounded). *)
Definition nearest_double (m : Z) (e : nat) : Num :=
  let excess := Z.log2 (Z.abs m) + 1 - 53 in
  if excess <=? 0 then normalize m e
  else
    let m' := round_half_even m excess in
    if Z.of_nat e <=? excess then Int (Z.shiftl m' (excess - Z.of_nat e))
    else normalize m' (e - Z.to_nat excess).

(** [a * b] and [a + b] on numbers. Integers multiply and add exactly, as
    doubles do up to 2^53; any other result is rounded to the nearest
    double. *)
Definition num_mul (a b : Num) : Num :=
  match a, b with
  | Int x, Int y => Int (x * y)
  | Int x, Frac m e | Frac m e, Int x => nearest_double (x * m) e
  | Frac m e, Frac m' e' => nearest_double (m * m') (e + e')
  | _, _ => NaN
  end.

Definition num_add (a b : Num) : Num :=
  match a, b with
  | Int x, Int y => Int (x + y)
  | Int x, Frac m e | Frac m e, Int x =>
      nearest_double (Z.shiftl x (Z.of_nat e) + m) e
  | Frac m e, Frac m' e' =>
      nearest_double (Z.shiftl m (Z.of_nat e') + Z.shiftl m' (Z.of_nat e)) (e + e')
  | _, _ => NaN
  end.

(** The message of the [TypeError] that ToPrimitive throws. *)
Definition cannot_convert : string := "Cannot convert object to primitive value".

(** The object has an own property [key]. *)
Fixpoint has_own (key : string) (props : list (string * JSValue)) : bool :=
  match props with
  | [] => false
  | (k, _) :: rest => String.eqb k key || has_own key rest
  end.

(** Number::toString: an integer up to 2^53 in magnitude prints in
    decimal, digit for digit; the text of any other number is the
    engine's. *)
Definition number_text `{Engine} (x : Num) : string :=
  match x with
  | Int n => if Z.abs n <=? 2 ^ 53 then pretty n else NumberToString x
  | Frac _ _ | NaN => NumberToString x
  end.

(** ToString, as used by template literals and [URLSearchParams.append].
    A number prints as [number_text] has it; an array joins its elements
    with commas ([undefined] and [null] elements print as the empty
    string). A plain object prints as [[object Object]] through the
    [toString] it inherits; when it has an own [toString] property, which
    is not callable, neither that nor [valueOf] (own, not callable, or
    inherited, returning the object) yields a primitive, and the
    conversion throws. *)
Fixpoint ToString `{Engine} (v : JSValue) : Result string :=
  match v with
  | JUndefined => Ok "undefined"
  | JNull => Ok "null"
  | JBool true => Ok "true"
  | JBool false => Ok "false"
  | JNum n => Ok (number_text (Int n))
  | JFrac m e => Ok (number_text (normalize m e))
  | JStr s => Ok s
  | JArr items =>
      let element x :=
        match x with
        | JUndefined | JNull => Ok ""
        | _ => ToString x
        end in
      (fix join (l : list JSValue) : Result string :=
         match l with
         | [] => Ok ""
         | [x] => element x
         | x :: rest =>
             match element x with
             | Ok first =>
                 match join rest with
                 | Ok others => Ok (first +:+ "," +:+ others)
                 | Err m => Err m
                 end
             | Err m => Err m
             end
         end) items
  | JObj props =>
      if has_own "toString" props then Err cannot_convert
      else Ok "[object Object]"
  end.

(** ToNumber. Arrays and objects go through their string form, and throw
    where that does. *)
Definition ToNumber `{Engine} (v : JSValue) : Result Num :=
  match v with
  | JUndefined => Ok NaN
  | JNull => Ok (Int 0)
  | JBool b => Ok (Int (if b then 1 else 0))
  | JNum n => Ok (Int n)
  | JFrac m e => Ok (normalize m e)
  | JStr s => Ok (StringToNumber s)
  | JArr _ | JObj _ =>
      match ToString v with
      | Ok s => Ok (StringToNumber s)
      | Err m => Err m
      end
  end.

(** Property read [v.key]: a [TypeError] on [undefined] and [null],
    [undefined] for a property the value does not have. Only used for
    keys that no prototype defines. *)
Fixpoint lookup_prop (key : string) (props : list (string * JSValue)) : JSValue :=
  match props with
  | [] => JUndefined
  | (k, v) :: rest => if String.eqb k key then v else lookup_prop key rest
  end.

Definition Get (v : JSValue) (key : string) : Result JSValue :=
  match v with
  | JUndefined =>
      Err ("Cannot read properties of undefined (reading '" +:+ key +:+ "')")
  | JNull =>
      Err ("Cannot read properties of null (reading '" +:+ key +:+ "')")
  | JObj props => Ok (lookup_prop key props)
  | _ => Ok JUndefined
  end.

(** [new Date(t)]: a time value outside the range of [Date] gives an
    Invalid Date; within it, the fraction of a millisecond is dropped. *)
Definition max_time : Z := 8640000000000000.

Definition new_Date (t : Num) : Date :=
  match t with
  | Int ms => if Z.abs ms <=? max_time then ValidDate ms else InvalidDate
  | Frac m e =>
      if Z.abs m <=? Z.shiftl max_time (Z.of_nat e)
      then ValidDate (Z.quot m (2 ^ Z.of_nat e))
      else InvalidDate
  | NaN => InvalidDate
  end.

(** [a < b] on dates compares the time values; false on an Invalid Date. *)
Definition date_lt (a b : Date) : bool :=
  match a, b with
  | ValidDate x, ValidDate y => x <? y
  | _, _ => false
  end.

(** [s.includes(search)] and [s.startsWith(search)]. *)
Fixpoint includes (s search : string) : bool :=
  String.prefix search s ||
  match s with
  | EmptyString => false
  | String _ rest => includes rest search
  end.

Definition startsWith (s search : string) : bool := String.prefix search s.

(** ** The platform: clock, network, console *)

(** What [fetch] is called with. The body is kept as the value that is
    serialised: the pairs of a [URLSearchParams], or the argument of
    [JSON.stringify]. *)
Inductive Body : Type :=
| FormBody (fields : list (string * string))
| JsonBody (data : JSValue).

Record Request : Type := mkRequest {
  req_url : string;
  req_method : string;
  req_headers : gmap string string;
  req_body : option Body;
  req_timeout : Z
}.

(** A [Response], by what the client observes of it: the status line,
    [headers.get('content-type')] ([None] for [null]), and what [json()]
    and [text()] settle to after [body_latency] milliseconds. *)
Record Response : Type := mkResponse {
  status : Z;
  statusText : string;
  content_type : option string;
  body_latency : N;
  json : Result JSValue;
  text : Result string
}.

(** [response.ok]: the status is in the range 200-299. *)
Definition ok (r : Response) : bool :=
  (200 <=? status r) && (status r <=? 299).

(** How one [fetch] settles: rejected with an error, or resolved with a
    response, [latency] milliseconds after the call. *)
Inductive FetchOutcome : Type :=
| Rejected (message : string)
| Resolved (r : Response).

Record Exchange : Type := mkExchange {
  latency : N;
  outcome : FetchOutcome
}.

(** What [console.log] printed. *)
Inductive Logged : Type :=
| LText (s : string)
| LValue (v : JSValue)
| LError (message : string).

Definition logged_truthy (d : Logged) : bool :=
  match d with
  | LText s => negb (String.eqb s "")
  | LValue v => truthy v
  | LError _ => true
  end.

(** The world around the client: the clock (milliseconds), the network
    (how the n-th [fetch] of the run settles), the requests sent so far
    and the console. *)
Record World : Type := mkWorld {
  now : Z;
  net : nat -> Exchange;
  sent : list Request;
  console : list Logged
}.

(** ** The client object *)

Record Config : Type := mkConfig {
  cfg_clientId : option string;
  cfg_clientSecret : option string;
  cfg_baseUrl : option string;
  cfg_timeout : option Z;
  cfg_debug : option bool
}.

Record Client : Type := mkClient {
  clientId : string;
  clientSecret : string;
  baseUrl : string;
  timeout : Z;
  debug : bool;
  token : JSValue;
  tokenExpiry : option Date
}.

(** [o || d] for an optional string / number / boolean property. *)
Definition str_or (o : option string) (d : string) : string :=
  match o with
  | Some s => if String.eqb s "" then d else s
  | None => d
  end.

Definition falsy_str (o : option string) : bool :=
  match o with
  | Some s => String.eqb s ""
  | None => true
  end.

Definition int_or (o : option Z) (d : Z) : Z :=
  match o with
  | Some n => if n =? 0 then d else n
  | None => d
  end.

Definition bool_or (o : option bool) (d : bool) : bool :=
  match o with
  | Some true => true
  | _ => d
  end.

(** [new SonatelAPI(config)]. *)
Definition constructor (config : Config) : Result Client :=
  if falsy_str (cfg_clientId config) || falsy_str (cfg_clientSecret config)
  then Err "Client ID and Client Secret are required"
  else Ok {| clientId := str_or (cfg_clientId config) "";
             clientSecret := str_or (cfg_clientSecret config) "";
             baseUrl := str_or (cfg_baseUrl config) "https://api.orange-sonatel.com";
             timeout := int_or (cfg_timeout config) 10000;
             debug := bool_or (cfg_debug config) false;
             token := JNull;
             tokenExpiry := None |}.

(** ** Methods: state and exceptions *)

(** A method runs on the client object and the world, and returns or
    throws. *)
Record State : Type := mkState {
  self : Client;
  world : World
}.

Definition M (A : Type) : Type := State -> Result A * State.

Definition ret {A} (a : A) : M A := fun s => (Ok a, s).

Definition throw {A} (message : string) : M A := fun s => (Err message, s).

Definition bind {A B} (m : M A) (k : A -> M B) : M B :=
  fun s =>
    match m s with
    | (Ok a, s') => k a s'
    | (Err e, s') => (Err e, s')
    end.

(** [try { m } catch (error) { handler(error.message) }]. *)
Definition try_catch {A} (m : M A) (handler : string -> M A) : M A :=
  fun s =>
    match m s with
    | (Ok a, s') => (Ok a, s')
    | (Err e, s') => handler e s'
    end.

Notation "'let!' x := m 'in' k" := (bind m (fun x => k))
  (at level 10, x name, m at level 100, k at level 200).
Notation "m ;; k" := (bind m (fun _ => k))
  (at level 100, k at level 200, right associativity).

Definition lift {A} (r : Result A) : M A := fun s => (r, s).

Definition this : M Client := fun s => (Ok (self s), s).

Definition with_token (v : JSValue) (c : Client) : Client :=
  {| clientId := clientId c; clientSecret := clientSecret c;
     baseUrl := baseUrl c; timeout := timeout c; debug := debug c;
     token := v; tokenExpiry := tokenExpiry c |}.

Definition with_tokenExpiry (d : Date) (c : Client) : Client :=
  {| clientId := clientId c; clientSecret := clientSecret c;
     baseUrl := baseUrl c; timeout := timeout c; debug := debug c;
     token := token c; tokenExpiry := Some d |}.

(** [this.token = v] and [this.tokenExpiry = d]. *)
Definition set_token (v : JSValue) : M unit :=
  fun s => (Ok tt, {| self := with_token v (self s); world := world s |}).

Definition set_tokenExpiry (d : Date) : M unit :=
  fun s => (Ok tt, {| self := with_tokenExpiry d (self s); world := world s |}).

(** [Date.now()], also the time value of [new Date()]. *)
Definition Date_now : M Z := fun s => (Ok (now (world s)), s).

Definition elapse (ms : N) (w : World) : World :=
  {| now := now w + Z.of_N ms; net := net w; sent := sent w;
     console := console w |}.

Definition console_log (d : Logged) : M unit :=
  fun s =>
    let w := world s in
    (Ok tt, {| self := self s;
               world := {| now := now w; net := net w; sent := sent w;
                           console := console w ++ [d] |} |}).

(** [await fetch(url, init)]: the request goes out, and the call settles
    as the network decides, after its latency. *)
Definition fetch (req : Request) : M Response :=
  fun s =>
    let w := world s in
    let ex := net w (length (sent w)) in
    let w' := {| now := now w + Z.of_N (latency ex); net := net w;
                 sent := sent w ++ [req]; console := console w |} in
    let s' := {| self := self s; world := w' |} in
    match outcome ex with
    | Rejected message => (Err message, s')
    | Resolved r => (Ok r, s')
    end.

(** [await response.json()] and [await response.text()]. *)
Definition response_json (r : Response) : M JSValue :=
  fun s => (json r, {| self := self s; world := elapse (body_latency r) (world s) |}).

Definition response_text (r : Response) : M string :=
  fun s => (text r, {| self := self s; world := elapse (body_latency r) (world s) |}).

(** ** [SonatelAPI] methods *)

(** [_log(message, data)]; a call without [data] passes [undefined]. *)
Definition _log (message : string) (data : Logged) : M unit :=
  let! c := this in
  if debug c then
    console_log (LText ("[SonatelAPI] " +:+ message)) ;;
    if logged_truthy data then console_log data else ret tt
  else ret tt.

Definition no_data : Logged := LValue JUndefined.

(** The token endpoint call of [_getToken]. *)
Definition token_request (c : Client) : Request :=
  {| req_url := baseUrl c +:+ "/oauth/token";
     req_method := "POST";
     req_headers := {[ "Content-Type" := "application/x-www-form-urlencoded" ]};
     req_body := Some (FormBody [("grant_type", "client_credentials");
                                 ("client_id", clientId c);
                                 ("client_secret", clientSecret c)]);
     req_timeout := timeout c |}.

(** [this.token && this.tokenExpiry && new Date() < this.tokenExpiry]. *)
Definition cached_token_usable (c : Client) (clock : Z) : bool :=
  truthy (token c) &&
  match tokenExpiry c with
  | Some expiry => date_lt (ValidDate clock) expiry
  | None => false
  end.

(** [async _getToken()]. *)
Definition _getToken `{Engine} : M JSValue :=
  let! c := this in
  let! clock := Date_now in
  if cached_token_usable c clock then
    _log "Using cached token" no_data ;;
    ret (token c)
  else
    _log "Fetching new token" no_data ;;
    try_catch
      (let! response := fetch (token_request c) in
       if negb (ok response) then
         throw ("Authentication failed: " +:+ pretty (status response)
                +:+ " " +:+ statusText response)
       else
         let! data := response_json response in
         let! access_token := lift (Get data "access_token") in
         set_token access_token ;;
         let! expires_in := lift (Get data "expires_in") in
         let expiresIn := js_or expires_in (JNum 3600) in
         let! t := Date_now in
         let! seconds := lift (ToNumber expiresIn) in
         set_tokenExpiry (new_Date (num_add (Int t) (num_mul seconds (Int 1000)))) ;;
         _log "Token acquired" (LValue (JObj [("expiresIn", expiresIn)])) ;;
         let! c' := this in
         ret (token c'))
      (fun error =>
         _log "Token acquisition failed" (LError error) ;;
         throw ("Failed to get authentication token: " +:+ error)).

(** A property of an options object: not there, there with the value
    [undefined], or there with a value. *)
Inductive Slot (A : Type) : Type :=
| Absent
| Undefined
| Given (a : A).
Arguments Absent {A}.
Arguments Undefined {A}.
Arguments Given {A} a.

(** Reading the property: [None] stands for [undefined]. *)
Definition read {A} (slot : Slot A) : option A :=
  match slot with
  | Given a => Some a
  | Absent | Undefined => None
  end.

Definition read_value (slot : Slot JSValue) : JSValue :=
  match slot with
  | Given v => v
  | Absent | Undefined => JUndefined
  end.

(** The [options] argument of [request]. *)
Record Options : Type := mkOptions {
  opt_method : Slot string;
  opt_params : Slot (list (string * JSValue));
  opt_data : Slot JSValue;
  opt_headers : Slot (gmap string string)
}.

Definition default_headers (bearer : string) : gmap string string :=
  {[ "Authorization" := "Bearer " +:+ bearer;
     "Content-Type" := "application/json" ]}.

(** [contentType && contentType.includes('application/json')]. *)
Definition is_json (contentType : option string) : bool :=
  match contentType with
  | Some ct => negb (String.eqb ct "") && includes ct "application/json"
  | None => false
  end.

(** [queryParams.append(key, value)] for each entry of [params], in
    order: every value goes through ToString, and the first that cannot
    throws. *)
Fixpoint append_all `{Engine} (params : list (string * JSValue))
  : Result (list (string * string)) :=
  match params with
  | [] => Ok []
  | (key, value) :: rest =>
      match ToString value with
      | Ok text =>
          match append_all rest with
          | Ok pairs => Ok ((key, text) :: pairs)
          | Err m => Err m
          end
      | Err m => Err m
      end
  end.

(** The [url] and the [requestOptions] that [request] builds. *)
Definition endpoint_url (c : Client) (endpoint : string) : string :=
  baseUrl c +:+ (if startsWith endpoint "/" then endpoint else "/" +:+ endpoint).

Definition request_url `{Engine} (c : Client) (endpoint : string)
    (params : list (string * JSValue)) : Result string :=
  let url := endpoint_url c endpoint in
  if (0 <? Z.of_nat (length params))
  then match append_all params with
       | Ok queryParams => Ok (url +:+ "?" +:+ URLSearchParams_toString queryParams)
       | Err m => Err m
       end
  else Ok url.

Definition requestOptions `{Engine} (c : Client) (access_token : JSValue)
    (url method : string) (data : JSValue) (headers : gmap string string)
  : Result Request :=
  match ToString access_token with
  | Ok bearer =>
      Ok {| req_url := url;
            req_method := method;
            req_headers := headers ∪ default_headers bearer;
            req_body := if negb (String.eqb method "GET") && truthy data
                        then Some (JsonBody data) else None;
            req_timeout := timeout c |}
  | Err m => Err m
  end.

(** [async request(endpoint, options = {})]. The token is obtained, and
    the URL and the request options are built, before the [try] block: an
    error thrown there reaches the caller as it is. *)
Definition request `{Engine} (endpoint : string) (options : Options) : M JSValue :=
  let method := str_or (read (opt_method options)) "GET" in
  let params := match read (opt_params options) with Some p => p | None => [] end in
  let data := js_or (read_value (opt_data options)) JNull in
  let headers := match read (opt_headers options) with Some h => h | None => ∅ end in
  let! access_token := _getToken in
  let! c := this in
  let! url := lift (request_url c endpoint params) in
  let! init := lift (requestOptions c access_token url method data headers) in
  _log ("Making " +:+ method +:+ " request to " +:+ url)
       (LValue (JObj [("params", JObj params); ("data", data)])) ;;
  try_catch
    (let! response := fetch init in
     let! responseData :=
       if is_json (content_type response)
       then response_json response
       else (let! body := response_text response in ret (JStr body)) in
     if negb (ok response) then
       throw ("Request failed: " +:+ pretty (status response)
              +:+ " " +:+ statusText response)
     else
       _log "Request successful" (LValue responseData) ;;
       ret responseData)
    (fun error =>
       _log "Request failed" (LError error) ;;
       throw ("API request failed: " +:+ error)).

(** ** Verb shorthands *)

(** Object spread [{ key: own, ...options }]: a property that [options]
    has, be it with the value [undefined], replaces the one written
    before it. *)
Definition spread {A} (own : A) (slot : Slot A) : Slot A :=
  match slot with
  | Absent => Given own
  | Undefined => Undefined
  | Given a => Given a
  end.

(** [async get(endpoint, params = {}, options = {})]. *)
Definition get `{Engine} (endpoint : string) (params : list (string * JSValue))
    (options : Options) : M JSValue :=
  request endpoint
    {| opt_method := spread "GET" (opt_method options);
       opt_params := spread params (opt_params options);
       opt_data := opt_data options;
       opt_headers := opt_headers options |}.

(** [async post(endpoint, data, options = {})]. *)
Definition post `{Engine} (endpoint : string) (data : JSValue)
    (options : Options) : M JSValue :=
  request endpoint
    {| opt_method := spread "POST" (opt_method options);
       opt_params := opt_params options;
       opt_data := spread data (opt_data options);
       opt_headers := opt_headers options |}.

(** [async put(endpoint, data, options = {})]. *)
Definition put `{Engine} (endpoint : string) (data : JSValue)
    (options : Options) : M JSValue :=
  request endpoint
    {| opt_method := spread "PUT" (opt_method options);
       opt_params := opt_params options;
       opt_data := spread data (opt_data options);
       opt_headers := opt_headers options |}.

(** [async delete(endpoint, options = {})]. *)
Definition delete `{Engine} (endpoint : string) (options : Options) : M JSValue :=
  request endpoint
    {| opt_method := spread "DELETE" (opt_method options);
       opt_params := opt_params options;
       opt_data := opt_data options;
       opt_headers := opt_headers options |}.

(** The [options] that a shorthand called without its last argument
    passes on: the empty object. *)
Definition no_overrides : Options :=
  {| opt_method := Absent; opt_params := Absent; opt_data := Absent;
     opt_headers := Absent |}.

(** ** Services

    A service object holds [api], a reference to the client, and its
    [endpoint] prefix. Every service made by [createClient] refers to the
    one client: its methods run on the client of the state. A service
    method takes its [options] argument as the JavaScript value it is;
    reading a property of [undefined] or [null] throws, and so does a
    template literal on a value that has no string form. The arguments of
    the shorthand are evaluated before it is called. *)

(** [if (v) params[key] = v]. *)
Definition set_if_truthy (key : string) (v : JSValue)
    (params : list (string * JSValue)) : list (string * JSValue) :=
  if truthy v then (params ++ [(key, v)])%list else params.

(** The template literal that writes an address: "tel:" followed by the
    string form of [v]. *)
Definition tel `{Engine} (v : JSValue) : Result JSValue :=
  match ToString v with
  | Ok text => Ok (JStr ("tel:" +:+ text))
  | Err m => Err m
  end.

Module SMSService.

Record t : Type := { endpoint : string }.

Definition new : t := {| endpoint := "/sms/v1" |}.

Definition sendSMS `{Engine} (service : t) (options : JSValue) : M JSValue :=
  let! recipient := lift (Get options "recipient") in
  let! message := lift (Get options "message") in
  if negb (truthy recipient) || negb (truthy message) then
    throw "Recipient and message are required"
  else
    let! address := lift (tel recipient) in
    let! sender := lift (Get options "sender") in
    let! senderAddress :=
      if truthy sender then lift (tel sender) else ret JUndefined in
    post (endpoint service +:+ "/messages")
      (JObj [("outboundSMSMessageRequest",
              JObj [("address", address);
                    ("senderAddress", senderAddress);
                    ("outboundSMSTextMessage", JObj [("message", message)])])])
      no_overrides.

Definition getDeliveryStatus `{Engine} (service : t) (messageId : JSValue) : M JSValue :=
  if negb (truthy messageId) then throw "Message ID is required"
  else
    let! id := lift (ToString messageId) in
    get (endpoint service +:+ "/messages/" +:+ id +:+ "/deliveryInfos")
      [] no_overrides.

(** [async getHistory(options = {})]. *)
Definition getHistory `{Engine} (service : t) (options : JSValue) : M JSValue :=
  let options := match options with JUndefined => JObj [] | o => o end in
  let! limit := lift (Get options "limit") in
  let! senderAddress := lift (Get options "senderAddress") in
  let! startDate := lift (Get options "startDate") in
  let! endDate := lift (Get options "endDate") in
  let params :=
    set_if_truthy "endDate" endDate
      (set_if_truthy "startDate" startDate
         (set_if_truthy "senderAddress" senderAddress
            (set_if_truthy "limit" limit []))) in
  get (endpoint service +:+ "/messages") params no_overrides.

Definition subscribeToDeliveryNotifications `{Engine} (service : t)
    (options : JSValue) : M JSValue :=
  let! notifyUrl := lift (Get options "notifyUrl") in
  if negb (truthy notifyUrl) then throw "Notify URL is required"
  else
    let! clientCorrelator := lift (Get options "clientCorrelator") in
    post (endpoint service +:+ "/subscriptions")
      (JObj [("deliveryReceiptSubscription",
              JObj [("callbackReference", JObj [("notifyURL", notifyUrl)]);
                    ("clientCorrelator", js_or clientCorrelator JUndefined)])])
      no_overrides.

End SMSService.

Module USSDService.

Record t : Type := { endpoint : string }.

Definition new : t := {| endpoint := "/ussd/v1" |}.

Definition sendNotification `{Engine} (service : t) (options : JSValue) : M JSValue :=
  let! address := lift (Get options "address") in
  let! message := lift (Get options "message") in
  if negb (truthy address) || negb (truthy message) then
    throw "Address and message are required"
  else
    let! recipient := lift (tel address) in
    let! keyword := lift (Get options "keyword") in
    post (endpoint service +:+ "/outbound")
      (JObj [("outboundUSSDMessageRequest",
              JObj [("address", recipient);
                    ("keyword", js_or keyword (JStr ""));
                    ("outboundUSSDMessage", JObj [("message", message)])])])
      no_overrides.

Definition handleInbound `{Engine} (service : t) (options : JSValue) : M JSValue :=
  let! address := lift (Get options "address") in
  let! message := lift (Get options "message") in
  let! sessionId := lift (Get options "sessionId") in
  if negb (truthy address) || negb (truthy message) || negb (truthy sessionId) then
    throw "Address, message, and sessionId are required"
  else
    let! id := lift (ToString sessionId) in
    let! sender := lift (tel address) in
    let! endSession := lift (Get options "endSession") in
    post (endpoint service +:+ "/inbound/" +:+ id)
      (JObj [("inboundUSSDMessageRequest",
              JObj [("address", sender);
                    ("inboundUSSDMessage", JObj [("message", message)]);
                    ("ussdSessionTermination", js_or endSession (JBool false))])])
      no_overrides.

Definition subscribeToNotifications `{Engine} (service : t)
    (options : JSValue) : M JSValue :=
  let! notifyUrl := lift (Get options "notifyUrl") in
  let! keyword := lift (Get options "keyword") in
  if negb (truthy notifyUrl) || negb (truthy keyword) then
    throw "Notify URL and keyword are required"
  else
    let! clientCorrelator := lift (Get options "clientCorrelator") in
    post (endpoint service +:+ "/subscriptions")
      (JObj [("ussdNotificationSubscription",
              JObj [("callbackReference", JObj [("notifyURL", notifyUrl)]);
                    ("keyword", keyword);
                    ("clientCorrelator", js_or clientCorrelator JUndefined)])])
      no_overrides.

Definition cancelSession `{Engine} (service : t) (sessionId : JSValue) : M JSValue :=
  if negb (truthy sessionId) then throw "Session ID is required"
  else
    let! id := lift (ToString sessionId) in
    delete (endpoint service +:+ "/sessions/" +:+ id) no_overrides.

End USSDService.

Module PaymentService.

Record t : Type := { endpoint : string }.

Definition new : t := {| endpoint := "/payment/v1" |}.

Definition requestPayment `{Engine} (service : t) (options : JSValue) : M JSValue :=
  let! amount := lift (Get options "amount") in
  let! currency := lift (Get options "currency") in
  let! customerMsisdn := lift (Get options "customerMsisdn") in
  if negb (truthy amount) || negb (truthy currency) || negb (truthy customerMsisdn) then
    throw "Amount, currency, and customer MSISDN are required"
  else
    let! description := lift (Get options "description") in
    let! callbackUrl := lift (Get options "callbackUrl") in
    let! merchantId := lift (Get options "merchantId") in
    let! orderId := lift (Get options "orderId") in
    post (endpoint service +:+ "/payments")
      (JObj [("requestPayment",
              JObj [("amount", amount);
                    ("currency", currency);
                    ("description", js_or description (JStr ""));
                    ("customerMsisdn", customerMsisdn);
                    ("callbackUrl", callbackUrl);
                    ("merchantId", merchantId);
                    ("orderId", orderId)])])
      no_overrides.

Definition checkPaymentStatus `{Engine} (service : t) (paymentId : JSValue) : M JSValue :=
  if negb (truthy paymentId) then throw "Payment ID is required"
  else
    let! id := lift (ToString paymentId) in
    get (endpoint service +:+ "/payments/" +:+ id) [] no_overrides.

Definition refundPayment `{Engine} (service : t) (options : JSValue) : M JSValue :=
  let! paymentId := lift (Get options "paymentId") in
  let! amount := lift (Get options "amount") in
  if negb (truthy paymentId) || negb (truthy amount) then
    throw "Payment ID and amount are required"
  else
    let! id := lift (ToString paymentId) in
    let! reason := lift (Get options "reason") in
    post (endpoint service +:+ "/payments/" +:+ id +:+ "/refund")
      (JObj [("refundPayment",
              JObj [("amount", amount);
                    ("reason", js_or reason (JStr "Customer request"))])])
      no_overrides.

(** [async getTransactionHistory(options = {})]. *)
Definition getTransactionHistory `{Engine} (service : t) (options : JSValue) : M JSValue :=
  let options := match options with JUndefined => JObj [] | o => o end in
  let! limit := lift (Get options "limit") in
  let! offset := lift (Get options "offset") in
  let! startDate := lift (Get options "startDate") in
  let! endDate := lift (Get options "endDate") in
  let! status := lift (Get options "status") in
  let params :=
    set_if_truthy "status" status
      (set_if_truthy "endDate" endDate
         (set_if_truthy "startDate" startDate
            (set_if_truthy "offset" offset
               (set_if_truthy "limit" limit [])))) in
  get (endpoint service +:+ "/transactions") params no_overrides.

Definition getAccountBalance `{Engine} (service : t) : M JSValue :=
  get (endpoint service +:+ "/account/balance") [] no_overrides.

Definition subscribeToNotifications `{Engine} (service : t)
    (options : JSValue) : M JSValue :=
  let! notifyUrl := lift (Get options "notifyUrl") in
  if negb (truthy notifyUrl) then throw "Notify URL is required"
  else
    let! eventType := lift (Get options "eventType") in
    post (endpoint service +:+ "/subscriptions")
      (JObj [("paymentNotificationSubscription",
              JObj [("callbackReference", JObj [("notifyURL", notifyUrl)]);
                    ("eventType", js_or eventType (JStr "all"))])])
      no_overrides.

End PaymentService.

(** [Sonatel.createClient(config)]: the client and its three services. *)
Record Sonatel : Type := mkSonatel {
  api : Client;
  sms : SMSService.t;
  ussd : USSDService.t;
  payment : PaymentService.t
}.

Definition createClient (config : Config) : Result Sonatel :=
  match constructor config with
  | Ok apiClient =>
      Ok {| api := apiClient; sms := SMSService.new; ussd := USSDService.new;
            payment := PaymentService.new |}
  | Err e => Err e
  end.

(** ** Public calls

    What the caller of a client made by [createClient] can invoke. *)
Inductive Call : Type :=
| ApiRequest (endpoint : string) (options : Options)
| ApiGet (endpoint : string) (params : list (string * JSValue)) (options : Options)
| ApiPost (endpoint : string) (data : JSValue) (options : Options)
| ApiPut (endpoint : string) (data : JSValue) (options : Options)
| ApiDelete (endpoint : string) (options : Options)
| SmsSendSMS (options : JSValue)
| SmsGetDeliveryStatus (messageId : JSValue)
| SmsGetHistory (options : JSValue)
| SmsSubscribe (options : JSValue)
| UssdSendNotification (options : JSValue)
| UssdHandleInbound (options : JSValue)
| UssdSubscribe (options : JSValue)
| UssdCancelSession (sessionId : JSValue)
| PayRequestPayment (options : JSValue)
| PayCheckPaymentStatus (paymentId : JSValue)
| PayRefundPayment (options : JSValue)
| PayGetTransactionHistory (options : JSValue)
| PayGetAccountBalance
| PaySubscribe (options : JSValue).

Definition perform `{Engine} (call : Call) : M JSValue :=
  match call with
  | ApiRequest endpoint options => request endpoint options
  | ApiGet endpoint params options => get endpoint params options
  | ApiPost endpoint data options => post endpoint data options
  | ApiPut endpoint data options => put endpoint data options
  | ApiDelete endpoint options => delete endpoint options
  | SmsSendSMS options => SMSService.sendSMS SMSService.new options
  | SmsGetDeliveryStatus messageId =>
      SMSService.getDeliveryStatus SMSService.new messageId
  | SmsGetHistory options => SMSService.getHistory SMSService.new options
  | SmsSubscribe options =>
      SMSService.subscribeToDeliveryNotifications SMSService.new options
  | UssdSendNotification options =>
      USSDService.sendNotification USSDService.new options
  | UssdHandleInbound options => USSDService.handleInbound USSDService.new options
  | UssdSubscribe options =>
      USSDService.subscribeToNotifications USSDService.new options
  | UssdCancelSession sessionId =>
      USSDService.cancelSession USSDService.new sessionId
  | PayRequestPayment options =>
      PaymentService.requestPayment PaymentService.new options
  | PayCheckPaymentStatus paymentId =>
      PaymentService.checkPaymentStatus PaymentService.new paymentId
  | PayRefundPayment options =>
      PaymentService.refundPayment PaymentService.new options
  | PayGetTransactionHistory options =>
      PaymentService.getTransactionHistory PaymentService.new options
  | PayGetAccountBalance => PaymentService.getAccountBalance PaymentService.new
  | PaySubscribe options =>
      PaymentService.subscribeToNotifications PaymentService.new options
  end.

(** A session: calls, and pauses between them. *)
Inductive Step : Type :=
| Invoke (call : Call)
| Pause (ms : N).

Definition step `{Engine} (st : Step) (s : State) : list (Result JSValue) * State :=
  match st with
  | Invoke call => let (r, s') := perform call s in ([r], s')
  | Pause ms => ([], {| self := self s; world := elapse ms (world s) |})
  end.

(** The results of the calls of a session, in order, and the state it
    ends in. *)
Fixpoint session `{Engine} (steps : list Step) (s : State)
  : list (Result JSValue) * State :=
  match steps with
  | [] => ([], s)
  | st :: rest =>
      let (results, s') := step st s in
      let (more, s'') := session rest s' in
      ((results ++ more)%list, s'')
  end.

(** The number of calls in a session. *)
Definition calls_in (steps : list Step) : nat :=
  length (List.filter (fun st => match st with Invoke _ => true | Pause _ => false end)
            steps).

(** The endpoint prefix of the service that a call goes through. *)
Definition route (call : Call) : option string :=
  match call with
  | ApiRequest _ _ | ApiGet _ _ _ | ApiPost _ _ _ | ApiPut _ _ _ | ApiDelete _ _ => None
  | SmsSendSMS _ | SmsGetDeliveryStatus _ | SmsGetHistory _ | SmsSubscribe _ =>
      Some "/sms/v1"
  | UssdSendNotification _ | UssdHandleInbound _ | UssdSubscribe _
  | UssdCancelSession _ => Some "/ussd/v1"
  | _ => Some "/payment/v1"
  end.

(** ** Running a client *)

(** What a caller does with a client: calls, and time passing in between. *)
Inductive Op : Type :=
| CallGetToken
| CallRequest (endpoint : string) (options : Options)
| Idle (ms : N).

Definition idle (ms : N) (s : State) : State :=
  {| self := self s; world := elapse ms (world s) |}.

Definition exec `{Engine} (op : Op) (s : State) : State :=
  match op with
  | CallGetToken => snd (_getToken s)
  | CallRequest endpoint options => snd (request endpoint options s)
  | Idle ms => idle ms s
  end.

Definition run `{Engine} (ops : list Op) (s : State) : State :=
  fold_left (fun s op => exec op s) ops s.

(** The number of [fetch] calls made between two states of a run. *)
Definition calls_between (s s' : State) : Z :=
  Z.of_nat (length (sent (world s'))) - Z.of_nat (length (sent (world s))).

(** ** A concrete engine and concrete runs *)

Definition digit_value (c : ascii) : option Z :=
  let n := Z.of_N (Ascii.N_of_ascii c) in
  if (48 <=? n) && (n <=? 57) then Some (n - 48) else None.

Fixpoint decimal_value (s : string) (acc : Z) : option Z :=
  match s with
  | EmptyString => Some acc
  | String c rest =>
      match digit_value c with
      | Some d => decimal_value rest (10 * acc + d)
      | None => None
      end
  end.

Fixpoint zeros (n : nat) : string :=
  match n with
  | O => ""
  | S n' => "0" +:+ zeros n'
  end.

(** The digits of [m / 2^e], which has [e] decimal places. *)
Definition fraction_digits (m : Z) (e : nat) : string :=
  let scale := 10 ^ Z.of_nat e in
  let scaled := Z.abs m * 5 ^ Z.of_nat e in
  let places := pretty (scaled mod scale) in
  (if m <? 0 then "-" else "") +:+ pretty (scaled / scale) +:+ "." +:+
  zeros (e - String.length places) +:+ places.

Fixpoint without_trailing_zeros (fuel : nat) (n : Z) : Z :=
  match fuel with
  | O => n
  | S fuel' =>
      if n mod 10 =? 0 then without_trailing_zeros fuel' (n / 10) else n
  end.

(** Exponent form of an integer: [d.ddde+x]. *)
Definition exponent_form (n : Z) : string :=
  let digits := pretty (Z.abs n) in
  let exponent := (String.length digits - 1)%nat in
  let significant := pretty (without_trailing_zeros exponent (Z.abs n)) in
  (if n <? 0 then "-" else "") +:+
  match significant with
  | String d EmptyString => String d EmptyString
  | String d rest => String d ("." +:+ rest)
  | EmptyString => ""
  end +:+ "e+" +:+ pretty (Z.of_nat exponent).

(** An engine for the examples: it reads plain decimal numerals (the
    empty string is 0, anything else is [NaN]), prints a number with the
    digits of its exact value (as JavaScript does when no shorter digit
    string reads back to the same number: 0.5, 2.75, 10^21), and joins
    form pairs without escaping. Most runs below never reach any of
    these functions. *)
Definition plain_engine : Engine :=
  {| StringToNumber s :=
       match decimal_value s 0 with Some n => Int n | None => NaN end;
     NumberToString x :=
       match x with
       | Int n => if Z.abs n <? 10 ^ 21 then pretty n else exponent_form n
       | Frac m e => fraction_digits m e
       | NaN => "NaN"
       end;
     URLSearchParams_toString l :=
       String.concat "&" (map (fun kv => fst kv +:+ "=" +:+ snd kv) l) |}.

Definition demo_config : Config :=
  {| cfg_clientId := Some "my-id"; cfg_clientSecret := Some "my-secret";
     cfg_baseUrl := None; cfg_timeout := None; cfg_debug := Some true |}.

Definition missing_secret : Config :=
  {| cfg_clientId := Some "my-id"; cfg_clientSecret := None;
     cfg_baseUrl := None; cfg_timeout := None; cfg_debug := None |}.

(** The client that [constructor demo_config] returns. *)
Definition demo_client : Client :=
  {| clientId := "my-id"; clientSecret := "my-secret";
     baseUrl := "https://api.orange-sonatel.com"; timeout := 10000;
     debug := true; token := JNull; tokenExpiry := None |}.

(** A network that answers the calls of a run in turn, and is down after
    the last answer listed. *)
Definition down : Exchange :=
  {| latency := 40; outcome := Rejected "fetch failed" |}.

Definition answers (script : list Exchange) : nat -> Exchange :=
  fun n => nth n script down.

Definition resolved (r : Response) : Exchange :=
  {| latency := 40; outcome := Resolved r |}.

Definition json_response (code : Z) (reason : string) (body : JSValue) : Response :=
  {| status := code; statusText := reason;
     content_type := Some "application/json"; body_latency := 5;
     json := Ok body; text := Err "body used already" |}.

Definition grant_body (lifetime : Z) : JSValue :=
  JObj [("access_token", JStr "abc"); ("expires_in", JNum lifetime)].

Definition grant (lifetime : Z) : Exchange :=
  resolved (json_response 200 "OK" (grant_body lifetime)).

(** 200 with an empty JSON object: no [access_token], no [expires_in]. *)
Definition empty_grant : Exchange :=
  resolved (json_response 200 "OK" (JObj [])).

Definition unauthorized_response : Response :=
  json_response 401 "Unauthorized" (JObj [("error", JStr "invalid_client")]).

Definition unauthorized : Exchange := resolved unauthorized_response.

(** 502 with a JSON content type and an empty body: [json()] rejects. *)
Definition bad_gateway : Exchange :=
  resolved
    {| status := 502; statusText := "Bad Gateway";
       content_type := Some "application/json"; body_latency := 0;
       json := Err "Unexpected end of JSON input"; text := Ok "" |}.



Definition receipt_response : Response :=
  json_response 200 "OK" (JObj [("delivered", JBool true)]).

Definition receipt : Exchange := resolved receipt_response.

Definition no_options : Options :=
  {| opt_method := Absent; opt_params := Absent; opt_data := Absent;
     opt_headers := Absent |}.

Definition custom_headers : Options :=
  {| opt_method := Given "POST"; opt_params := Absent;
     opt_data := Given (JObj [("message", JStr "hi")]);
     opt_headers := Given {[ "Content-Type" := "text/plain"; "X-Trace" := "1" ]} |}.

Definition start_time : Z := 1700000000000.

(** A client just constructed, in a world with the given network. *)
Definition fresh_state (script : list Exchange) : State :=
  {| self := demo_client;
     world := {| now := start_time; net := answers script; sent := [];
                 console := [] |} |}.

(** A client that holds a token for most of an hour still. *)
Definition warm_state (script : list Exchange) : State :=
  {| self := with_tokenExpiry (ValidDate (start_time + 3590000))
               (with_token (JStr "abc") demo_client);
     world := {| now := start_time; net := answers script; sent := [];
                 console := [] |} |}.

(** The same client an hour later, with the network down. *)
Definition expired_state : State := idle 3600000 (warm_state []).

(** A token granted for one second and used once; five seconds later the
    network is down. *)
Definition before_failed_refresh : State :=
  @run plain_engine [CallGetToken; Idle 5000] (fresh_state [grant 1]).

Definition after_failed_refresh : State :=
  @exec plain_engine CallGetToken before_failed_refresh.


(** A grant of the empty string as token, for an hour. *)
Definition blank_grant : Exchange :=
  resolved (json_response 200 "OK"
              (JObj [("access_token", JStr ""); ("expires_in", JNum 3600)])).

(** The state one second after a first [_getToken] got the blank grant. *)
Definition after_blank_grant : State :=
  @run plain_engine [CallGetToken; Idle 1000] (fresh_state [blank_grant; blank_grant]).


(** A grant whose [expires_in] is an object with an own, non-callable
    [toString]: the JSON text [{"access_token":"new","expires_in":{"toString":0}}]. *)
Definition unconvertible : JSValue := JObj [("toString", JNum 0)].

Definition odd_grant_body : JSValue :=
  JObj [("access_token", JStr "new"); ("expires_in", unconvertible)].

Definition odd_grant : Exchange := resolved (json_response 200 "OK" odd_grant_body).

(** 200 with the JSON body [null], and 200 with a body that has no
    [access_token] and an [expires_in] that cannot be converted. *)
Definition null_grant : Exchange := resolved (json_response 200 "OK" JNull).

Definition tokenless_odd_grant : Exchange :=
  resolved (json_response 200 "OK" (JObj [("expires_in", unconvertible)])).

(** *** Further runs: shorthands, services, sessions *)

(** A grant whose token is an object without string form. *)
Definition opaque_token_grant : Exchange :=
  resolved (json_response 200 "OK"
              (JObj [("access_token", unconvertible); ("expires_in", JNum 3600)])).

(** Options whose method and data are there with the value [undefined]. *)
Definition undefined_options : Options :=
  {| opt_method := Undefined; opt_params := Absent; opt_data := Undefined;
     opt_headers := Absent |}.

(** Options with an Authorization header of the caller's own. *)
Definition own_authorization : Options :=
  {| opt_method := Absent; opt_params := Absent; opt_data := Absent;
     opt_headers := Given {[ "Authorization" := "none" ]} |}.

(** [s] with the debug flag off. *)
Definition muted (s : State) : State :=
  {| self := {| clientId := clientId (self s); clientSecret := clientSecret (self s);
                baseUrl := baseUrl (self s); timeout := timeout (self s);
                debug := false; token := token (self s);
                tokenExpiry := tokenExpiry (self s) |};
     world := world s |}.

Definition sms_options : JSValue :=
  JObj [("recipient", JStr "221700000000"); ("message", JStr "Hello")].


Definition inbound_options : JSValue :=
  JObj [("address", JStr "221700000000"); ("message", JStr "1");
        ("sessionId", JStr "s-42")].

Definition payment_options : JSValue :=
  JObj [("amount", JStr "1000"); ("currency", JStr "XOF");
        ("customerMsisdn", JStr "221700000000"); ("paymentId", JStr "p-7")].

(** An SMS, a pause, a balance query, and a cancellation that is refused. *)
Definition demo_session : list Step :=
  [Invoke (SmsSendSMS sms_options); Pause 1000; Invoke PayGetAccountBalance;
   Invoke (UssdCancelSession JNull)].


Definition charset_response : Response :=
  {| status := 200; statusText := "OK";
     content_type := Some "application/json; charset=utf-8"; body_latency := 5;
     json := Ok (JObj [("delivered", JBool true)]);
     text := Err "body used already" |}.

Definition patch_options : Options :=
  {| opt_method := Given "PATCH"; opt_params := Given [("page", JNum 2)];
     opt_data := Given (JObj [("message", JStr "hi")]); opt_headers := Absent |}.

Definition empty_method_options : Options :=
  {| opt_method := Given ""; opt_params := Absent; opt_data := Absent;
     opt_headers := Absent |}.

Definition data_options : Options :=
  {| opt_method := Absent; opt_params := Absent;
     opt_data := Given (JObj [("message", JStr "hi")]); opt_headers := Absent |}.

(** ** Vocabulary of the specification *)

(** The cache emptied: what a client without a token holds. *)
Definition forget (s : State) : State :=
  {| self := {| clientId := clientId (self s); clientSecret := clientSecret (self s);
                baseUrl := baseUrl (self s); timeout := timeout (self s);
                debug := debug (self s); token := JNull; tokenExpiry := None |};
     world := world s |}.

(** The cache holds a token whose expiry is strictly after the clock. *)
Definition has_valid_token (s : State) : Prop :=
  truthy (token (self s)) = true /\
  exists expiresAt,
    tokenExpiry (self s) = Some (ValidDate expiresAt) /\ now (world s) < expiresAt.

(** The cache as the constructor leaves it. *)
Definition cache_empty (c : Client) : Prop :=
  token c = JNull /\ tokenExpiry c = None.

(** The cache is empty, or its expiry is strictly after [last_check]. *)
Definition absent_or_fresh (c : Client) (last_check : Z) : Prop :=
  cache_empty c \/
  exists expiresAt, tokenExpiry c = Some (ValidDate expiresAt) /\ last_check < expiresAt.

(** The client raises plain [Error]s; the failure categories of the
    specification are told apart by the message. *)
Definition ConfigurationError (message : string) : Prop :=
  message = "Client ID and Client Secret are required".

Definition AuthenticationError (message upstream : string) : Prop :=
  message = "Failed to get authentication token: " +:+ upstream.

Definition RequestError (message : string) (code : Z) (reason : string) : Prop :=
  message = "API request failed: Request failed: " +:+ pretty code +:+ " " +:+ reason.

(** Two states that differ at most by what was printed on the console. *)
Definition same_but_console (s s' : State) : Prop :=
  self s' = self s /\ now (world s') = now (world s) /\
  net (world s') = net (world s) /\ sent (world s') = sent (world s).

(** The ways a token exchange can fail, with the upstream message. *)
Inductive AcquisitionFailure (ex : Exchange) : string -> Prop :=
| network_failure m :
    outcome ex = Rejected m ->
    AcquisitionFailure ex m
| failing_status r :
    outcome ex = Resolved r -> ok r = false ->
    AcquisitionFailure ex
      ("Authentication failed: " +:+ pretty (status r) +:+ " " +:+ statusText r)
| unparsable_body r m :
    outcome ex = Resolved r -> ok r = true -> json r = Err m ->
    AcquisitionFailure ex m.

(** What one token exchange does, from the client [c] at clock [t], when
    the network answers [ex]: the result, the client and the clock after. *)
Inductive Acquisition `{Engine} (c : Client) (t : Z) (ex : Exchange)
  : Result JSValue -> Client -> Z -> Prop :=
| acq_rejected m :
    outcome ex = Rejected m ->
    Acquisition c t ex (Err ("Failed to get authentication token: " +:+ m))
      c (t + Z.of_N (latency ex))
| acq_status r :
    outcome ex = Resolved r -> ok r = false ->
    Acquisition c t ex
      (Err ("Failed to get authentication token: " +:+
            ("Authentication failed: " +:+ pretty (status r) +:+ " " +:+ statusText r)))
      c (t + Z.of_N (latency ex))
| acq_unparsable r m :
    outcome ex = Resolved r -> ok r = true -> json r = Err m ->
    Acquisition c t ex (Err ("Failed to get authentication token: " +:+ m))
      c (t + Z.of_N (latency ex) + Z.of_N (body_latency r))
| acq_no_properties r data m :
    outcome ex = Resolved r -> ok r = true -> json r = Ok data ->
    Get data "access_token" = Err m ->
    Acquisition c t ex (Err ("Failed to get authentication token: " +:+ m))
      c (t + Z.of_N (latency ex) + Z.of_N (body_latency r))
| acq_unconvertible r data access_token expires_in m :
    outcome ex = Resolved r -> ok r = true -> json r = Ok data ->
    Get data "access_token" = Ok access_token ->
    Get data "expires_in" = Ok expires_in ->
    ToNumber (js_or expires_in (JNum 3600)) = Err m ->
    Acquisition c t ex (Err ("Failed to get authentication token: " +:+ m))
      (with_token access_token c)
      (t + Z.of_N (latency ex) + Z.of_N (body_latency r))
| acq_stored r data access_token expires_in seconds :
    outcome ex = Resolved r -> ok r = true -> json r = Ok data ->
    Get data "access_token" = Ok access_token ->
    Get data "expires_in" = Ok expires_in ->
    ToNumber (js_or expires_in (JNum 3600)) = Ok seconds ->
    let t' := t + Z.of_N (latency ex) + Z.of_N (body_latency r) in
    Acquisition c t ex (Ok access_token)
      (with_tokenExpiry
         (new_Date (num_add (Int t') (num_mul seconds (Int 1000))))
         (with_token access_token c))
      t'.

(** [_getToken] on [s], answered by [r], returns [access_token] and
    stores it once the body is read, together with the expiry that
    [expiry] gives for the clock at that time. *)
Definition acquires `{Engine} (s : State) (r : Response) (access_token : JSValue)
    (expiry : Z -> Date) : Prop :=
  exists s',
    _getToken s = (Ok access_token, s') /\
    now (world s') =
      now (world s) + Z.of_N (latency (net (world s) (length (sent (world s)))))
      + Z.of_N (body_latency r) /\
    token (self s') = access_token /\
    tokenExpiry (self s') = Some (expiry (now (world s'))).

(** [response.json()] or [response.text()], as [request] chooses. *)
Definition decoded (r : Response) : Result JSValue :=
  if is_json (content_type r) then json r
  else match text r with
       | Ok body => Ok (JStr body)
       | Err m => Err m
       end.

(** What the resource exchange of [request] yields when the network
    answers [ex]. *)
Inductive Dispatch (ex : Exchange) : Result JSValue -> Prop :=
| disp_rejected m :
    outcome ex = Rejected m ->
    Dispatch ex (Err ("API request failed: " +:+ m))
| disp_undecoded r m :
    outcome ex = Resolved r -> decoded r = Err m ->
    Dispatch ex (Err ("API request failed: " +:+ m))
| disp_status r v :
    outcome ex = Resolved r -> decoded r = Ok v -> ok r = false ->
    Dispatch ex
      (Err ("API request failed: " +:+
            ("Request failed: " +:+ pretty (status r) +:+ " " +:+ statusText r)))
| disp_ok r v :
    outcome ex = Resolved r -> decoded r = Ok v -> ok r = true ->
    Dispatch ex (Ok v).

(** The [fetch] argument of [request endpoint options], once the token is
    there; an error when the query or the token has no string form. *)
Definition resource_request `{Engine} (c : Client) (access_token : JSValue)
    (endpoint : string) (options : Options) : Result Request :=
  match request_url c endpoint
          (match read (opt_params options) with Some p => p | None => [] end) with
  | Ok url =>
      requestOptions c access_token url
        (str_or (read (opt_method options)) "GET")
        (js_or (read_value (opt_data options)) JNull)
        (match read (opt_headers options) with Some h => h | None => ∅ end)
  | Err m => Err m
  end.

(** The content type of the response indicates JSON. *)
Definition indicates_json (r : Response) : Prop :=
  exists ct, content_type r = Some ct /\ includes ct "application/json" = true.

(** What [request] does once it holds the token. *)
Definition dispatch `{Engine} (endpoint : string) (options : Options)
    (access_token : JSValue) : M JSValue :=
  let method := str_or (read (opt_method options)) "GET" in
  let params := match read (opt_params options) with Some p => p | None => [] end in
  let data := js_or (read_value (opt_data options)) JNull in
  let headers := match read (opt_headers options) with Some h => h | None => ∅ end in
  let! c := this in
  let! url := lift (request_url c endpoint params) in
  let! init := lift (requestOptions c access_token url method data headers) in
  _log ("Making " +:+ method +:+ " request to " +:+ url)
       (LValue (JObj [("params", JObj params); ("data", data)])) ;;
  try_catch
    (let! response := fetch init in
     let! responseData :=
       if is_json (content_type response)
       then response_json response
       else (let! body := response_text response in ret (JStr body)) in
     if negb (ok response) then
       throw ("Request failed: " +:+ pretty (status response)
              +:+ " " +:+ statusText response)
     else
       _log "Request successful" (LValue responseData) ;;
       ret responseData)
    (fun error =>
       _log "Request failed" (LError error) ;;
       throw ("API request failed: " +:+ error)).

(** The configuration of a client: everything but the cache. *)
Definition same_config (c c' : Client) : Prop :=
  clientId c' = clientId c /\ clientSecret c' = clientSecret c /\
  baseUrl c' = baseUrl c /\ timeout c' = timeout c /\ debug c' = debug c.

(** Two states that differ at most by the debug flag and the console. *)
Definition same_but_debug (s s' : State) : Prop :=
  clientId (self s') = clientId (self s) /\
  clientSecret (self s') = clientSecret (self s) /\
  baseUrl (self s') = baseUrl (self s) /\
  timeout (self s') = timeout (self s) /\
  token (self s') = token (self s) /\
  tokenExpiry (self s') = tokenExpiry (self s) /\
  now (world s') = now (world s) /\
  net (world s') = net (world s) /\
  sent (world s') = sent (world s).

(** The headers that the caller of a public call supplies: those of its
    [options], for a call of the client itself; none, for a call of a
    service. *)
Definition caller_headers (call : Call) : gmap string string :=
  match call with
  | ApiRequest _ options | ApiGet _ _ options | ApiPost _ _ options
  | ApiPut _ _ options | ApiDelete _ options =>
      match read (opt_headers options) with Some h => h | None => ∅ end
  | _ => ∅
  end.


(** [s] starts with [p]. *)
Definition starts_with (p s : string) : Prop := exists rest, s = p +:+ rest.

(** Induction on a value, through the elements of an array. *)
Section Value_induction.
Variable P : JSValue -> Prop.
Hypothesis on_undefined : P JUndefined.
Hypothesis on_null : P JNull.
Hypothesis on_bool : forall b, P (JBool b).
Hypothesis on_num : forall n, P (JNum n).
Hypothesis on_frac : forall m e, P (JFrac m e).
Hypothesis on_str : forall s, P (JStr s).
Hypothesis on_arr : forall items, Forall P items -> P (JArr items).
Hypothesis on_obj : forall props, P (JObj props).

Fixpoint value_induction (v : JSValue) : P v :=
  match v with
  | JUndefined => on_undefined
  | JNull => on_null
  | JBool b => on_bool b
  | JNum n => on_num n
  | JFrac m e => on_frac m e
  | JStr s => on_str s
  | JArr items =>
      on_arr items
        ((fix all (l : list JSValue) : Forall P l :=
            match l with
            | [] => @List.Forall_nil JSValue P
            | x :: rest =>
                @List.Forall_cons JSValue P x rest (value_induction x) (all rest)
            end) items)
  | JObj props => on_obj props
  end.

End Value_induction.

(** * Properties *)

Section Properties.
Context {E : Engine}.

Ltac run_methods :=
  unfold _getToken, request, _log, try_catch, bind, ret, throw, lift, this,
    Date_now, fetch, response_json, response_text, set_token,
    set_tokenExpiry, console_log, no_data, elapse;
  cbn [self world fst snd now net sent console token tokenExpiry debug
       with_token with_tokenExpiry logged_truthy truthy negb].

Ltac reduce_state :=
  cbn [self world fst snd now net sent console token tokenExpiry debug
       with_token with_tokenExpiry logged_truthy truthy negb].

Lemma log_same_but_console (message : string) (data : Logged) (s : State) :
  exists s', _log message data s = (Ok tt, s') /\ same_but_console s s'.
Proof.
  run_methods.
  destruct (debug (self s)); [destruct (logged_truthy data) |];
    eexists; (split; [reflexivity | repeat split]).
Qed.

Lemma usable_iff_valid (s : State) :
  cached_token_usable (self s) (now (world s)) = true <-> has_valid_token s.
Proof.
  unfold cached_token_usable, has_valid_token. split.
  - intros H. apply andb_true_iff in H as [Ht Hd]. split; [exact Ht |].
    destruct (tokenExpiry (self s)) as [[ms |] |]; cbn in Hd; try discriminate.
    exists ms. split; [reflexivity | lia].
  - intros [Ht (ms & He & Hlt)]. rewrite Ht, He. cbn.
    apply Z.ltb_lt. exact Hlt.
Qed.

Lemma not_usable_iff_invalid (s : State) :
  cached_token_usable (self s) (now (world s)) = false <-> ~ has_valid_token s.
Proof.
  rewrite <- usable_iff_valid.
  destruct (cached_token_usable (self s) (now (world s))); split; congruence.
Qed.

(** A usable cached token is returned as it is; nothing but the console
    changes. *)
Lemma getToken_hit (s : State) :
  has_valid_token s ->
  exists s', _getToken s = (Ok (token (self s)), s') /\ same_but_console s s'.
Proof.
  intros Hv. apply usable_iff_valid in Hv.
  unfold _getToken, bind, this, Date_now. cbn [fst snd].
  rewrite Hv.
  destruct (log_same_but_console "Using cached token" no_data s) as (s' & Hl & Hs).
  fold (@bind unit JSValue). unfold bind. rewrite Hl.
  exists s'. split; [reflexivity | exact Hs].
Qed.

(** Without a usable token, exactly one exchange with the token endpoint
    takes place, and it decides the result. *)
Lemma getToken_miss (s : State) :
  ~ has_valid_token s ->
  exists r s',
    _getToken s = (r, s') /\
    Acquisition (self s) (now (world s))
      (net (world s) (length (sent (world s)))) r (self s') (now (world s')) /\
    sent (world s') = (sent (world s) ++ [token_request (self s)])%list /\
    net (world s') = net (world s).
Proof.
  intros Hv. apply not_usable_iff_invalid in Hv.
  destruct s as [[cid csec burl tmo dbg tok exp] w].
  run_methods. cbn [self world now] in Hv. rewrite Hv.
  destruct dbg; reduce_state;
    destruct (outcome (net w (length (sent w)))) as [m | r] eqn:Ho; reduce_state.
  1, 3: do 2 eexists; split; [reflexivity |];
        split; [apply acq_rejected; exact Ho | split; reflexivity].
  all: destruct (ok r) eqn:Hok; reduce_state.
  2, 4: do 2 eexists; split; [reflexivity |];
        split; [apply acq_status; assumption | split; reflexivity].
  all: destruct (json r) as [data | m] eqn:Hj; reduce_state.
  2, 4: do 2 eexists; split; [reflexivity |];
        split; [eapply acq_unparsable; eassumption | split; reflexivity].
  all: destruct (Get data "access_token") as [access_token | m] eqn:Ht; reduce_state.
  2, 4: do 2 eexists; split; [reflexivity |];
        split; [eapply acq_no_properties; eassumption | split; reflexivity].
  all: destruct (Get data "expires_in") as [expires_in | m] eqn:He; reduce_state.
  2, 4: destruct data; cbn in Ht, He; discriminate.
  all: destruct (ToNumber (js_or expires_in (JNum 3600))) as [seconds | m] eqn:Hn;
       reduce_state.
  2, 4: do 2 eexists; split; [reflexivity |];
        split; [eapply acq_unconvertible; eassumption | split; reflexivity].
  all: do 2 eexists; split; [reflexivity |];
       split; [eapply acq_stored; eassumption | split; reflexivity].
Qed.

(** A failed token acquisition is the failure of [request], unchanged. *)
Lemma request_without_token (endpoint : string) (options : Options)
    (s s' : State) (e : string) :
  _getToken s = (Err e, s') -> request endpoint options s = (Err e, s').
Proof.
  intros H. unfold request, bind. rewrite H. reflexivity.
Qed.

(** With a token, and a query and a token that have a string form,
    [request] makes exactly one resource exchange, which decides the
    result. *)
Lemma request_with_token (endpoint : string) (options : Options)
    (s s1 : State) (access_token : JSValue) (req : Request) :
  _getToken s = (Ok access_token, s1) ->
  resource_request (self s1) access_token endpoint options = Ok req ->
  exists r s2,
    request endpoint options s = (r, s2) /\
    Dispatch (net (world s1) (length (sent (world s1)))) r /\
    self s2 = self s1 /\
    sent (world s2) = (sent (world s1) ++ [req])%list.
Proof.
  intros H Hreq. unfold request, bind at 1. rewrite H.
  destruct s1 as [[cid csec burl tmo dbg tok exp] w].
  unfold resource_request in Hreq. cbn [self] in Hreq.
  run_methods.
  destruct (request_url _ endpoint _) as [url | m]; [| discriminate].
  rewrite Hreq.
  destruct dbg; reduce_state;
    destruct (outcome (net w (length (sent w)))) as [m | r] eqn:Ho; reduce_state.
  1, 3: do 2 eexists; split; [reflexivity |];
        split; [apply disp_rejected; exact Ho | split; reflexivity].
  all: pose proof (eq_refl (decoded r)) as Hd; unfold decoded at 2 in Hd;
       destruct (is_json (content_type r)); reduce_state;
       [ destruct (json r) as [v | m] eqn:Hj
       | destruct (text r) as [v | m] eqn:Hj ]; reduce_state.
  all: destruct (ok r) eqn:Hok; reduce_state.
  all: try match goal with
           | |- context [if ?b then _ else _] => destruct b
           end; reduce_state.
  all: do 2 eexists; split; [reflexivity |]; split; [| split; reflexivity].
  all: first [ eapply disp_ok; eassumption
             | eapply disp_status; eassumption
             | eapply disp_undecoded; eassumption ].
Qed.

(** When the query or the token has no string form, [request] throws
    that error as it is, once it holds the token: nothing more is sent. *)
Lemma request_unprintable (endpoint : string) (options : Options)
    (s s1 : State) (access_token : JSValue) (m : string) :
  _getToken s = (Ok access_token, s1) ->
  resource_request (self s1) access_token endpoint options = Err m ->
  request endpoint options s = (Err m, s1).
Proof.
  intros H Hreq. unfold request, bind at 1. rewrite H.
  unfold resource_request in Hreq.
  unfold bind, this, lift.
  destruct (request_url (self s1) endpoint _) as [url | m']; cbn [fst snd].
  - rewrite Hreq. reflexivity.
  - congruence.
Qed.

(** The request that [request] sent after the token exchange is the one
    built from its arguments. *)
Lemma request_sent_inv (endpoint : string) (options : Options)
    (s s1 : State) (access_token : JSValue) (req : Request) :
  _getToken s = (Ok access_token, s1) ->
  sent (world (snd (request endpoint options s))) = (sent (world s1) ++ [req])%list ->
  resource_request (self s1) access_token endpoint options = Ok req.
Proof.
  intros Hg Hsent.
  destruct (resource_request (self s1) access_token endpoint options)
    as [req0 | m] eqn:Hreq.
  - destruct (request_with_token endpoint options s s1 access_token req0 Hg Hreq)
      as (r & s2 & Hr & _ & _ & Hs).
    rewrite Hr in Hsent. cbn [snd] in Hsent. rewrite Hs in Hsent.
    apply app_inj_tail in Hsent as [_ ->]. reflexivity.
  - rewrite (request_unprintable endpoint options s s1 access_token m Hg Hreq)
      in Hsent.
    cbn [snd] in Hsent. apply (f_equal (@length Request)) in Hsent.
    rewrite length_app in Hsent. cbn [length] in Hsent. lia.
Qed.

Lemma idle_self (ms : N) (s : State) : self (idle ms s) = self s.
Proof. reflexivity. Qed.

Lemma idle_sent (ms : N) (s : State) : sent (world (idle ms s)) = sent (world s).
Proof. reflexivity. Qed.

(** C1, as the code has it. A cached token that is truthy and whose expiry
    is strictly after the clock is returned unchanged, without any network
    call; without such a token, getToken sends the token request and makes
    the token exchange, whose answer decides the result and what is
    stored; and two getToken calls in a row, the second within the expiry
    window that the first opened, make exactly one network call in all. *)
Theorem getToken_uses_cache (s : State) :
  (has_valid_token s ->
   exists s',
     _getToken s = (Ok (token (self s)), s') /\
     self s' = self s /\ sent (world s') = sent (world s)) /\
  (~ has_valid_token s ->
   exists r s',
     _getToken s = (r, s') /\
     sent (world s') = (sent (world s) ++ [token_request (self s)])%list /\
     Acquisition (self s) (now (world s))
       (net (world s) (length (sent (world s)))) r (self s') (now (world s'))) /\
  (~ has_valid_token s ->
   forall (access_token : JSValue) (s1 : State) (ms : N),
     _getToken s = (Ok access_token, s1) ->
     has_valid_token (idle ms s1) ->
     exists s2,
       _getToken (idle ms s1) = (Ok access_token, s2) /\
       sent (world s2) = (sent (world s) ++ [token_request (self s)])%list /\
       calls_between s s2 = 1).
Proof.
  split; [| split].
  - intros Hv. destruct (getToken_hit s Hv) as (s' & Hg & Hs & _ & _ & Hsent).
    exists s'. auto.
  - intros Hv. destruct (getToken_miss s Hv) as (r & s' & Hg & Hacq & Hsent & _).
    exists r, s'. auto.
  - intros Hv access_token s1 ms Hg1 Hv1.
    destruct (getToken_miss s Hv) as (r & s' & Hg & Hacq & Hsent & _).
    rewrite Hg in Hg1. injection Hg1 as -> ->.
    destruct (getToken_hit _ Hv1) as (s2 & Hg2 & _ & _ & _ & Hsent2).
    assert (Htok : token (self s1) = access_token).
    { inversion Hacq; subst; reflexivity. }
    exists s2. rewrite idle_self, Htok in Hg2. rewrite idle_sent in Hsent2.
    split; [exact Hg2 |]. split; [congruence |].
    unfold calls_between. rewrite Hsent2, Hsent, length_app. cbn [length]. lia.
Qed.

(** C6, as the code has it. A getToken call that fails leaves
    [tokenExpiry] as it was; it leaves [token] as it was when the failure
    is a failing status, a network failure or a body that cannot be
    parsed; the one failure that has replaced [token] already, by the
    [access_token] of the response, is that of converting [expires_in] to
    a number. *)
Theorem failed_getToken_keeps_cache (s s' : State) (e : string) :
  _getToken s = (Err e, s') ->
  let ex := net (world s) (length (sent (world s))) in
  tokenExpiry (self s') = tokenExpiry (self s) /\
  ((exists upstream, AcquisitionFailure ex upstream) ->
   token (self s') = token (self s)) /\
  (token (self s') = token (self s) \/
   exists r data access_token expires_in m,
     outcome ex = Resolved r /\ ok r = true /\ json r = Ok data /\
     Get data "access_token" = Ok access_token /\
     Get data "expires_in" = Ok expires_in /\
     ToNumber (js_or expires_in (JNum 3600)) = Err m /\
     e = "Failed to get authentication token: " +:+ m /\
     token (self s') = access_token).
Proof.
  intros Hg ex.
  destruct (cached_token_usable (self s) (now (world s))) eqn:Hu.
  { apply usable_iff_valid in Hu.
    destruct (getToken_hit s Hu) as (s1 & Hg1 & _). congruence. }
  apply not_usable_iff_invalid in Hu.
  destruct (getToken_miss s Hu) as (r & s1 & Hg1 & Hacq & _).
  rewrite Hg in Hg1. injection Hg1 as <- <-. fold ex in Hacq.
  split; [| split].
  - inversion Hacq; subst; try discriminate; try congruence. reflexivity.
  - intros (upstream & Hf).
    inversion Hacq; subst; try discriminate; try congruence.
    inversion Hf as [m0 Ho0 | r0 Ho0 Hok0 | r0 m0 Ho0 Hok0 Hj0]; congruence.
  - inversion Hacq; subst; try discriminate; try (left; congruence).
    right. do 5 eexists. repeat (split; [eassumption |]).
    split; reflexivity.
Qed.

(** C4. When the token endpoint answers with a failing status, the network
    call fails, or the body cannot be parsed, getToken fails with an
    authentication error that carries the upstream message, after exactly
    one request (no retry); and [request] then fails with that same error,
    in the same state. *)
Theorem getToken_failure_is_authentication_error (s : State) (upstream : string) :
  ~ has_valid_token s ->
  AcquisitionFailure (net (world s) (length (sent (world s)))) upstream ->
  exists e s',
    AuthenticationError e upstream /\
    _getToken s = (Err e, s') /\
    sent (world s') = (sent (world s) ++ [token_request (self s)])%list /\
    forall endpoint options, request endpoint options s = (Err e, s').
Proof.
  intros Hv Hf.
  destruct (getToken_miss s Hv) as (r & s' & Hg & Hacq & Hsent & _).
  assert (Hr : r = Err ("Failed to get authentication token: " +:+ upstream)).
  { inversion Hf as [m Ho | r0 Ho Hok | r0 m Ho Hok Hj]; subst;
      inversion Hacq; subst; try congruence.
    all: repeat match goal with
         | A : outcome ?x = Resolved _, B : outcome ?x = Resolved _ |- _ =>
             rewrite A in B; injection B as <-
         end; congruence. }
  subst r. exists ("Failed to get authentication token: " +:+ upstream), s'.
  split; [reflexivity |]. split; [exact Hg |]. split; [exact Hsent |].
  intros endpoint options. apply request_without_token. exact Hg.
Qed.

Lemma forget_invalid (s : State) : ~ has_valid_token (forget s).
Proof. intros [Ht _]. cbn in Ht. discriminate. Qed.

(** An expired or absent token makes getToken behave as on an empty
    cache: same result, same world afterwards. *)
Lemma getToken_miss_as_absent (s : State) :
  ~ has_valid_token s ->
  fst (_getToken s) = fst (_getToken (forget s)) /\
  world (snd (_getToken s)) = world (snd (_getToken (forget s))).
Proof.
  intros Hv. pose proof (forget_invalid s) as Hf.
  apply not_usable_iff_invalid in Hv, Hf.
  destruct s as [[cid csec burl tmo dbg tok exp] w].
  unfold forget in *.
  cbn [self world now clientId clientSecret baseUrl timeout debug] in Hv, Hf.
  run_methods. cbn [self world now clientId clientSecret baseUrl timeout debug].
  rewrite Hv, Hf. unfold token_request.
  cbn [clientId clientSecret baseUrl timeout].
  destruct dbg; reduce_state;
    (destruct (outcome (net w (length (sent w)))) as [m | r]; reduce_state;
     [split; reflexivity |]);
    (destruct (ok r); reduce_state; [| split; reflexivity]);
    (destruct (json r) as [data | m]; reduce_state; [| split; reflexivity]);
    (destruct (Get data "access_token"); reduce_state; [| split; reflexivity]);
    (destruct (Get data "expires_in") as [expires_in | m]; reduce_state;
     [| split; reflexivity]);
    (destruct (ToNumber (js_or expires_in (JNum 3600))); reduce_state;
     split; reflexivity).
Qed.

(** What a successful exchange stores, in full. *)
Lemma getToken_stores (s : State) (r : Response)
    (data access_token expires_in : JSValue) (seconds : Num) :
  ~ has_valid_token s ->
  outcome (net (world s) (length (sent (world s)))) = Resolved r ->
  ok r = true ->
  json r = Ok data ->
  Get data "access_token" = Ok access_token ->
  Get data "expires_in" = Ok expires_in ->
  ToNumber (js_or expires_in (JNum 3600)) = Ok seconds ->
  acquires s r access_token
    (fun clock => new_Date (num_add (Int clock) (num_mul seconds (Int 1000)))).
Proof.
  intros Hv Ho Hok Hj Ht He Hn.
  destruct (getToken_miss s Hv) as (res & s' & Hg & Hacq & _).
  inversion Hacq
    as [ | | | | | r0 d0 a0 e0 n0 Ho0 Hok0 Hj0 Ht0 He0 Hn0 t' Hres Hself Hnow ];
    try congruence.
  rewrite Ho in Ho0. injection Ho0 as <-.
  rewrite Hj in Hj0. injection Hj0 as <-.
  rewrite Ht in Ht0. injection Ht0 as <-.
  rewrite He in He0. injection He0 as <-.
  rewrite Hn in Hn0. injection Hn0 as <-.
  exists s'. subst res. split; [exact Hg |].
  split; [symmetry; exact Hnow |].
  rewrite <- Hself. cbn [token tokenExpiry with_token with_tokenExpiry].
  split; [reflexivity |]. subst t'. rewrite Hnow. reflexivity.
Qed.

(** C2, as the code has it. After any sequence of getToken and request
    calls: a token that getToken returns without a network call is the
    cached one, and its expiry is strictly after the clock of that check;
    a cached token that is absent, or whose expiry is at or before the
    clock, is not returned: getToken sends a token request and behaves as
    on an empty cache; when that exchange fails (failing status, network
    failure, unparsable body), the client, expired token and expiry
    included, stays as it was; and when it succeeds, the token obtained
    is returned whatever the expiry stored with it. *)
Theorem expired_token_is_never_served (ops : list Op) (s0 : State) :
  let s := run ops s0 in
  (forall (t : JSValue) (s' : State),
     _getToken s = (Ok t, s') -> sent (world s') = sent (world s) ->
     t = token (self s) /\ has_valid_token s) /\
  (~ has_valid_token s ->
   sent (world (snd (_getToken s))) =
     (sent (world s) ++ [token_request (self s)])%list /\
   fst (_getToken s) = fst (_getToken (forget s)) /\
   world (snd (_getToken s)) = world (snd (_getToken (forget s)))) /\
  (forall upstream : string,
     ~ has_valid_token s ->
     AcquisitionFailure (net (world s) (length (sent (world s)))) upstream ->
     fst (_getToken s) = Err ("Failed to get authentication token: " +:+ upstream) /\
     self (snd (_getToken s)) = self s) /\
  (forall (r : Response) (data access_token expires_in : JSValue) (seconds : Num),
     ~ has_valid_token s ->
     outcome (net (world s) (length (sent (world s)))) = Resolved r ->
     ok r = true ->
     json r = Ok data ->
     Get data "access_token" = Ok access_token ->
     Get data "expires_in" = Ok expires_in ->
     ToNumber (js_or expires_in (JNum 3600)) = Ok seconds ->
     acquires s r access_token
       (fun clock => new_Date (num_add (Int clock) (num_mul seconds (Int 1000))))).
Proof.
  intros s. split; [| split; [| split]].
  - intros t s' Hg Hsent.
    destruct (cached_token_usable (self s) (now (world s))) eqn:Hu.
    + apply usable_iff_valid in Hu.
      destruct (getToken_hit s Hu) as (s1 & Hg1 & _).
      split; [congruence | exact Hu].
    + apply not_usable_iff_invalid in Hu.
      destruct (getToken_miss s Hu) as (r & s1 & Hg1 & _ & Hsent1 & _).
      rewrite Hg in Hg1. injection Hg1 as <- <-.
      rewrite Hsent in Hsent1. apply (f_equal (@length Request)) in Hsent1.
      rewrite length_app in Hsent1. cbn [length] in Hsent1. lia.
  - intros Hv. split.
    + destruct (getToken_miss s Hv) as (r & s1 & Hg1 & _ & Hsent1 & _).
      rewrite Hg1. exact Hsent1.
    + apply getToken_miss_as_absent. exact Hv.
  - intros upstream Hv Hf.
    destruct (getToken_miss s Hv) as (r & s1 & Hg1 & Hacq & _).
    rewrite Hg1. cbn [fst snd].
    inversion Hf as [m Ho | r0 Ho Hok | r0 m Ho Hok Hj]; subst;
      inversion Hacq; subst; try congruence.
    all: repeat match goal with
         | A : outcome ?x = Resolved _, B : outcome ?x = Resolved _ |- _ =>
             rewrite A in B; injection B as <-
         end; try congruence.
    all: split; [congruence | reflexivity].
  - intros r data access_token expires_in seconds Hv.
    apply getToken_stores. exact Hv.
Qed.


(** C10, as the code has it. A token response with a success status whose
    JSON body can be read for properties (any JSON value but null), has
    no [access_token] or a falsy one, and has an [expires_in] with a
    numeric value (or none), raises no error: getToken returns that
    absent or falsy value, stores it as the token, and stores a new
    expiry computed from the clock. *)
Theorem getToken_accepts_missing_access_token (s : State) (r : Response)
    (data access_token expires_in : JSValue) (seconds : Num) :
  ~ has_valid_token s ->
  outcome (net (world s) (length (sent (world s)))) = Resolved r ->
  ok r = true ->
  json r = Ok data ->
  Get data "access_token" = Ok access_token ->
  truthy access_token = false ->
  Get data "expires_in" = Ok expires_in ->
  ToNumber (js_or expires_in (JNum 3600)) = Ok seconds ->
  acquires s r access_token
    (fun clock => new_Date (num_add (Int clock) (num_mul seconds (Int 1000)))).
Proof.
  intros Hv Ho Hok Hj Ht _ He Hn.
  exact (getToken_stores s r data access_token expires_in seconds
           Hv Ho Hok Hj Ht He Hn).
Qed.

(** C7. A configuration whose clientId or clientSecret is absent or empty
    is refused by the constructor with the configuration error. The
    constructor is a function of the configuration alone: it returns or
    throws before anything is sent. *)
Theorem constructor_requires_credentials (config : Config) :
  cfg_clientId config = None \/ cfg_clientId config = Some "" \/
  cfg_clientSecret config = None \/ cfg_clientSecret config = Some "" ->
  exists e, constructor config = Err e /\ ConfigurationError e.
Proof.
  intros H. exists "Client ID and Client Secret are required".
  split; [| reflexivity]. unfold constructor.
  destruct H as [H | [H | [H | H]]]; rewrite H; cbn [falsy_str String.eqb];
    rewrite ?orb_true_r; reflexivity.
Qed.

Lemma default_headers_Authorization (bearer : string) :
  default_headers bearer !! "Authorization" = Some ("Bearer " +:+ bearer).
Proof. unfold default_headers. apply lookup_insert_eq. Qed.

Lemma default_headers_Content_Type (bearer : string) :
  default_headers bearer !! "Content-Type" = Some "application/json".
Proof.
  unfold default_headers. rewrite lookup_insert_ne by discriminate.
  apply lookup_singleton_eq.
Qed.

(** The resource request, when there is one, in full. *)
Lemma resource_request_Ok (c : Client) (access_token : JSValue)
    (endpoint : string) (options : Options) (req : Request) :
  resource_request c access_token endpoint options = Ok req <->
  exists url bearer,
    request_url c endpoint
      (match read (opt_params options) with Some p => p | None => [] end) = Ok url /\
    ToString access_token = Ok bearer /\
    req = {| req_url := url;
             req_method := str_or (read (opt_method options)) "GET";
             req_headers :=
               (match read (opt_headers options) with Some h => h | None => ∅ end)
               ∪ default_headers bearer;
             req_body :=
               if negb (String.eqb (str_or (read (opt_method options)) "GET") "GET")
                  && truthy (js_or (read_value (opt_data options)) JNull)
               then Some (JsonBody (js_or (read_value (opt_data options)) JNull))
               else None;
             req_timeout := timeout c |}.
Proof.
  unfold resource_request, requestOptions. split.
  - destruct (request_url c endpoint _) as [url | m]; [| discriminate].
    destruct (ToString access_token) as [bearer | m]; [| discriminate].
    intros H. injection H as <-. exists url, bearer. auto.
  - intros (url & bearer & -> & -> & ->). reflexivity.
Qed.

(** C8. [request] sends its resource request whenever the token and the
    query parameters have a string form, and the headers of the request
    it sends are the default Authorization and Content-Type headers
    overlaid with the caller's: a header the caller supplies goes out
    with the caller's value, and each default goes out whenever the
    caller supplies no header of that name. *)
Theorem request_merges_headers (endpoint : string) (options : Options)
    (s s1 : State) (access_token : JSValue) :
  _getToken s = (Ok access_token, s1) ->
  let supplied : gmap string string :=
    match read (opt_headers options) with Some h => h | None => ∅ end in
  let params : list (string * JSValue) :=
    match read (opt_params options) with Some p => p | None => [] end in
  let after := snd (request endpoint options s) in
  (forall bearer url,
     ToString access_token = Ok bearer ->
     request_url (self s1) endpoint params = Ok url ->
     exists req, sent (world after) = (sent (world s1) ++ [req])%list) /\
  (forall req,
     sent (world after) = (sent (world s1) ++ [req])%list ->
     exists bearer,
       ToString access_token = Ok bearer /\
       (forall name value,
          supplied !! name = Some value -> req_headers req !! name = Some value) /\
       (supplied !! "Authorization" = None ->
        req_headers req !! "Authorization" = Some ("Bearer " +:+ bearer)) /\
       (supplied !! "Content-Type" = None ->
        req_headers req !! "Content-Type" = Some "application/json")).
Proof.
  intros Hg supplied params after. split.
  - intros bearer url Hb Hu.
    assert (Hreq : exists req,
               resource_request (self s1) access_token endpoint options = Ok req).
    { eexists. apply resource_request_Ok. exists url, bearer. auto. }
    destruct Hreq as (req & Hreq).
    destruct (request_with_token endpoint options s s1 access_token req Hg Hreq)
      as (r & s2 & Hr & _ & _ & Hsent).
    exists req. unfold after. rewrite Hr. exact Hsent.
  - intros req Hsent.
    apply (request_sent_inv endpoint options s s1 access_token req Hg) in Hsent.
    apply resource_request_Ok in Hsent as (url & bearer & _ & Hb & ->).
    exists bearer. split; [exact Hb |]. cbn [req_headers]. fold supplied.
    split; [| split].
    + intros name value Hs. apply lookup_union_Some_l. exact Hs.
    + intros Hs. rewrite lookup_union_r by exact Hs.
      apply default_headers_Authorization.
    + intros Hs. rewrite lookup_union_r by exact Hs.
      apply default_headers_Content_Type.
Qed.

Lemma includes_empty (search : string) :
  search <> "" -> includes "" search = false.
Proof.
  intros Hne. destruct search; [contradiction | reflexivity].
Qed.

Lemma is_json_iff (r : Response) :
  is_json (content_type r) = true <-> indicates_json r.
Proof.
  unfold is_json, indicates_json. split.
  - destruct (content_type r) as [ct |]; [| discriminate].
    intros H. apply andb_true_iff in H as [_ H]. eauto.
  - intros (ct & -> & Hi). rewrite Hi, andb_true_r.
    destruct ct; [| reflexivity].
    rewrite includes_empty in Hi by discriminate. discriminate.
Qed.

(** The result of [request] once the response is there. *)
Lemma request_result (endpoint : string) (options : Options)
    (s s1 : State) (access_token : JSValue) (req : Request) (r : Response) :
  _getToken s = (Ok access_token, s1) ->
  resource_request (self s1) access_token endpoint options = Ok req ->
  outcome (net (world s1) (length (sent (world s1)))) = Resolved r ->
  fst (request endpoint options s) =
    match decoded r with
    | Ok v =>
        if ok r then Ok v
        else Err ("API request failed: Request failed: " +:+ pretty (status r)
                  +:+ " " +:+ statusText r)
    | Err m => Err ("API request failed: " +:+ m)
    end.
Proof.
  intros Hg Hreq Ho.
  destruct (request_with_token endpoint options s s1 access_token req Hg Hreq)
    as (res & s2 & Hr & Hd & _).
  rewrite Hr. cbn [fst].
  inversion Hd as [m Ho' | r' m Ho' Hm | r' v Ho' Hv Hok | r' v Ho' Hv Hok];
    rewrite Ho in Ho'; try discriminate; injection Ho' as <-.
  - rewrite Hm. reflexivity.
  - rewrite Hv, Hok. reflexivity.
  - rewrite Hv, Hok. reflexivity.
Qed.


(** A failing status fails the call, whatever the body; when the body was
    decoded, the error names the status code and text. *)
Lemma request_failing_status (endpoint : string) (options : Options)
    (s s1 : State) (access_token : JSValue) (req : Request) (r : Response) :
  _getToken s = (Ok access_token, s1) ->
  resource_request (self s1) access_token endpoint options = Ok req ->
  outcome (net (world s1) (length (sent (world s1)))) = Resolved r ->
  ok r = false ->
  (exists e, fst (request endpoint options s) = Err e) /\
  (forall v, decoded r = Ok v ->
     exists e, fst (request endpoint options s) = Err e /\
               RequestError e (status r) (statusText r)) /\
  (forall m, decoded r = Err m ->
     fst (request endpoint options s) = Err ("API request failed: " +:+ m)).
Proof.
  intros Hg Hreq Ho Hok.
  rewrite (request_result endpoint options s s1 access_token req r Hg Hreq Ho).
  rewrite Hok. split; [| split].
  - destruct (decoded r); eauto.
  - intros v ->. eexists. split; reflexivity.
  - intros m ->. reflexivity.
Qed.

End Properties.

(** * The properties on concrete runs *)

Ltac by_computation := vm_compute; reflexivity.

Lemma warm_state_valid (script : list Exchange) : has_valid_token (warm_state script).
Proof.
  split; [reflexivity |].
  exists (start_time + 3590000). split; [reflexivity | by_computation].
Qed.

Lemma fresh_state_invalid (script : list Exchange) : ~ has_valid_token (fresh_state script).
Proof. intros [H _]. vm_compute in H. discriminate H. Qed.

(** C3, where the code departs from it: the resource endpoint answers 502
    Bad Gateway with a JSON content type and an empty body. [request]
    fails, but the error carries the message of the JSON parser and
    neither the status code nor the status text. *)
Theorem unparsable_body_hides_failing_status :
  fst (@request plain_engine "/sms/v1/outbound" no_options
         (fresh_state [grant 3600; bad_gateway]))
  = Err "API request failed: Unexpected end of JSON input" /\
  ~ RequestError "API request failed: Unexpected end of JSON input"
      502 "Bad Gateway".
Proof.
  split; [by_computation |].
  unfold RequestError. vm_compute. discriminate.
Qed.

Lemma getToken_uses_cache_witness :
  (has_valid_token (warm_state []) /\
   exists s',
     @_getToken plain_engine (warm_state []) = (Ok (JStr "abc"), s') /\
     self s' = self (warm_state []) /\
     sent (world s') = sent (world (warm_state []))) /\
  (~ has_valid_token (fresh_state [grant 3600]) /\
   exists r s',
     @_getToken plain_engine (fresh_state [grant 3600]) = (r, s') /\
     sent (world s') = [token_request demo_client] /\
     @Acquisition plain_engine demo_client start_time (grant 3600)
       r (self s') (now (world s'))) /\
  (has_valid_token
     (idle 1000 (snd (@_getToken plain_engine (fresh_state [grant 3600])))) /\
   exists s2,
     @_getToken plain_engine
       (idle 1000 (snd (@_getToken plain_engine (fresh_state [grant 3600]))))
     = (Ok (JStr "abc"), s2) /\
     sent (world s2) = [token_request demo_client] /\
     calls_between (fresh_state [grant 3600]) s2 = 1).
Proof.
  pose proof (warm_state_valid []) as Hw.
  pose proof (fresh_state_invalid [grant 3600]) as Hf.
  assert (Hv : has_valid_token
            (idle 1000 (snd (@_getToken plain_engine (fresh_state [grant 3600]))))).
  { split; [reflexivity |].
    exists 1700003600045. split; by_computation. }
  destruct (@getToken_uses_cache plain_engine (warm_state [])) as (H1 & _ & _).
  destruct (@getToken_uses_cache plain_engine (fresh_state [grant 3600]))
    as (_ & H2 & H3).
  split; [split; [exact Hw | exact (H1 Hw)] |].
  split; [split; [exact Hf | exact (H2 Hf)] |].
  split; [exact Hv |].
  apply (H3 Hf (JStr "abc")); [by_computation | exact Hv].
Defined.

Lemma after_blank_grant_dated :
  exists expiresAt,
    tokenExpiry (self after_blank_grant) = Some (ValidDate expiresAt) /\
    now (world after_blank_grant) < expiresAt.
Proof. exists 1700003600045. split; by_computation. Qed.

(** C1, against the claim as stated: the server grants the empty string
    as token, for an hour. One second after that exchange the cache
    holds this token with an expiry still an hour ahead, and getToken
    makes a second network call all the same. *)
Lemma blank_token_is_fetched_again :
  sent (world after_blank_grant) = [token_request demo_client] /\
  token (self after_blank_grant) = JStr "" /\
  tokenExpiry (self after_blank_grant) = Some (ValidDate 1700003600045) /\
  now (world after_blank_grant) = 1700000001045 /\
  fst (@_getToken plain_engine after_blank_grant) = Ok (JStr "") /\
  sent (world (snd (@_getToken plain_engine after_blank_grant)))
  = [token_request demo_client; token_request demo_client].
Proof. repeat split; by_computation. Qed.

Lemma failed_getToken_keeps_cache_witness :
  @_getToken plain_engine expired_state
  = (Err "Failed to get authentication token: fetch failed",
     snd (@_getToken plain_engine expired_state)) /\
  AcquisitionFailure (net (world expired_state) 0) "fetch failed" /\
  tokenExpiry (self (snd (@_getToken plain_engine expired_state)))
  = Some (ValidDate (start_time + 3590000)) /\
  token (self (snd (@_getToken plain_engine expired_state))) = JStr "abc".
Proof.
  assert (Hg : @_getToken plain_engine expired_state
               = (Err "Failed to get authentication token: fetch failed",
                  snd (@_getToken plain_engine expired_state)))
    by by_computation.
  assert (Hf : AcquisitionFailure (net (world expired_state) 0) "fetch failed")
    by (apply network_failure; reflexivity).
  destruct (@failed_getToken_keeps_cache plain_engine _ _ _ Hg) as (He & Ht & _).
  split; [exact Hg |]. split; [exact Hf |]. split; [exact He |].
  apply Ht. exists "fetch failed". exact Hf.
Defined.

(** C6, against the claim as stated: a client holds the token "abc",
    expired; the token endpoint answers 200 with
    [{"access_token":"new","expires_in":{"toString":0}}]. getToken fails,
    and the cache now holds the token "new" with the old expiry. *)
Lemma failed_getToken_replaces_token :
  token (self (idle 3600000 (warm_state [odd_grant]))) = JStr "abc" /\
  fst (@_getToken plain_engine (idle 3600000 (warm_state [odd_grant])))
  = Err "Failed to get authentication token: Cannot convert object to primitive value" /\
  token (self (snd (@_getToken plain_engine (idle 3600000 (warm_state [odd_grant])))))
  = JStr "new" /\
  tokenExpiry (self (snd (@_getToken plain_engine (idle 3600000 (warm_state [odd_grant])))))
  = Some (ValidDate (start_time + 3590000)).
Proof. repeat split; by_computation. Qed.

Lemma getToken_failure_is_authentication_error_witness :
  ~ has_valid_token (fresh_state [unauthorized]) /\
  AcquisitionFailure (net (world (fresh_state [unauthorized])) 0)
    "Authentication failed: 401 Unauthorized" /\
  exists e s',
    AuthenticationError e "Authentication failed: 401 Unauthorized" /\
    @_getToken plain_engine (fresh_state [unauthorized]) = (Err e, s') /\
    sent (world s') = [token_request demo_client] /\
    forall endpoint options,
      @request plain_engine endpoint options (fresh_state [unauthorized])
      = (Err e, s').
Proof.
  pose proof (fresh_state_invalid [unauthorized]) as Hf.
  assert (Ha : AcquisitionFailure (net (world (fresh_state [unauthorized])) 0)
                 "Authentication failed: 401 Unauthorized").
  { apply (failing_status (net (world (fresh_state [unauthorized])) 0)
             unauthorized_response); reflexivity. }
  split; [exact Hf |]. split; [exact Ha |].
  exact (@getToken_failure_is_authentication_error plain_engine
           (fresh_state [unauthorized]) _ Hf Ha).
Defined.

Lemma before_failed_refresh_invalid : ~ has_valid_token before_failed_refresh.
Proof.
  intros (_ & e & He & Hlt). vm_compute in He. injection He as <-.
  vm_compute in Hlt. discriminate Hlt.
Qed.

(** C2, against the claim as stated. First part: a client constructed from
    [demo_config] gets a token for one second; five seconds later the
    refresh fails; the cache then still holds that token, with an expiry
    four seconds before the freshness check just made. Second part: the
    server grants a token with [expires_in] -5, and getToken returns it
    although the expiry it has stored is five seconds before the clock. *)
Lemma failed_refresh_leaves_expired_token :
  (constructor demo_config = Ok (self (fresh_state [grant 1])) /\
   now (world before_failed_refresh) = 1700000005045 /\
   fst (@_getToken plain_engine before_failed_refresh)
   = Err "Failed to get authentication token: fetch failed" /\
   token (self after_failed_refresh) = JStr "abc" /\
   tokenExpiry (self after_failed_refresh) = Some (ValidDate 1700000001045) /\
   ~ absent_or_fresh (self after_failed_refresh) (now (world before_failed_refresh))) /\
  (fst (@_getToken plain_engine (fresh_state [grant (-5)])) = Ok (JStr "abc") /\
   now (world (snd (@_getToken plain_engine (fresh_state [grant (-5)]))))
   = 1700000000045 /\
   tokenExpiry (self (snd (@_getToken plain_engine (fresh_state [grant (-5)]))))
   = Some (ValidDate 1699999995045)).
Proof.
  split; [| repeat split; by_computation].
  repeat (split; [by_computation |]).
  intros [[Ht _] | (e & He & Hlt)].
  - vm_compute in Ht. discriminate Ht.
  - vm_compute in He. injection He as <-. vm_compute in Hlt. discriminate Hlt.
Qed.

Lemma expired_token_is_never_served_witness :
  (@_getToken plain_engine (@run plain_engine [] (warm_state []))
   = (Ok (JStr "abc"), snd (@_getToken plain_engine (warm_state []))) /\
   JStr "abc" = token (self (warm_state [])) /\
   has_valid_token (warm_state [])) /\
  (~ has_valid_token before_failed_refresh /\
   sent (world (snd (@_getToken plain_engine before_failed_refresh)))
   = (sent (world before_failed_refresh)
      ++ [token_request (self before_failed_refresh)])%list /\
   fst (@_getToken plain_engine before_failed_refresh)
   = fst (@_getToken plain_engine (forget before_failed_refresh)) /\
   world (snd (@_getToken plain_engine before_failed_refresh))
   = world (snd (@_getToken plain_engine (forget before_failed_refresh)))) /\
  (AcquisitionFailure
     (net (world before_failed_refresh) (length (sent (world before_failed_refresh))))
     "fetch failed" /\
   fst (@_getToken plain_engine before_failed_refresh)
   = Err "Failed to get authentication token: fetch failed" /\
   self (snd (@_getToken plain_engine before_failed_refresh))
   = self before_failed_refresh) /\
  @acquires plain_engine (fresh_state [grant (-5)])
    (json_response 200 "OK" (grant_body (-5))) (JStr "abc")
    (fun clock => ValidDate (clock - 5000)).
Proof.
  destruct (@expired_token_is_never_served plain_engine [] (warm_state []))
    as (H1 & _ & _ & _).
  destruct (@expired_token_is_never_served plain_engine
              [CallGetToken; Idle 5000] (fresh_state [grant 1]))
    as (_ & H2 & H3 & _).
  destruct (@expired_token_is_never_served plain_engine [] (fresh_state [grant (-5)]))
    as (_ & _ & _ & H4).
  assert (Hg1 : @_getToken plain_engine (@run plain_engine [] (warm_state []))
                = (Ok (JStr "abc"), snd (@_getToken plain_engine (warm_state []))))
    by by_computation.
  assert (Hf : AcquisitionFailure
                 (net (world before_failed_refresh)
                    (length (sent (world before_failed_refresh))))
                 "fetch failed")
    by (apply network_failure; reflexivity).
  split; [split; [exact Hg1 | apply (H1 _ _ Hg1); by_computation] |].
  split; [split; [exact before_failed_refresh_invalid
                 | exact (H2 before_failed_refresh_invalid)] |].
  split; [split; [exact Hf | exact (H3 _ before_failed_refresh_invalid Hf)] |].
  destruct (H4 (json_response 200 "OK" (grant_body (-5))) (grant_body (-5))
              (JStr "abc") (JNum (-5)) (Int (-5))
              (fresh_state_invalid [grant (-5)])
              eq_refl eq_refl eq_refl eq_refl eq_refl eq_refl)
    as (s' & Hg & Hnow & Htok & Hexp).
  exists s'. repeat (split; [assumption |]).
  rewrite Hexp, Hnow. by_computation.
Defined.



Lemma getToken_accepts_missing_access_token_witness :
  ~ has_valid_token (fresh_state [empty_grant]) /\
  Get (JObj []) "access_token" = Ok JUndefined /\
  truthy JUndefined = false /\
  @acquires plain_engine (fresh_state [empty_grant])
    (json_response 200 "OK" (JObj [])) JUndefined
    (fun clock => ValidDate (clock + 3600000)).
Proof.
  pose proof (fresh_state_invalid [empty_grant]) as Hf.
  split; [exact Hf |]. split; [reflexivity |]. split; [reflexivity |].
  destruct (@getToken_accepts_missing_access_token plain_engine
              (fresh_state [empty_grant]) (json_response 200 "OK" (JObj []))
              (JObj []) JUndefined JUndefined (Int 3600)
              Hf eq_refl eq_refl eq_refl eq_refl eq_refl eq_refl eq_refl)
    as (s' & Hg & Hnow & Htok & Hexp).
  exists s'. repeat (split; [assumption |]).
  rewrite Hexp, Hnow. by_computation.
Defined.

(** C10, against the claim as stated: a 200 response whose JSON body is
    [null], and one whose body is [{"expires_in":{"toString":0}}], both
    without [access_token], make getToken fail. *)
Lemma body_without_token_can_fail :
  ok (json_response 200 "OK" JNull) = true /\
  fst (@_getToken plain_engine (fresh_state [null_grant]))
  = Err "Failed to get authentication token: Cannot read properties of null (reading 'access_token')" /\
  Get (JObj [("expires_in", unconvertible)]) "access_token" = Ok JUndefined /\
  fst (@_getToken plain_engine (fresh_state [tokenless_odd_grant]))
  = Err "Failed to get authentication token: Cannot convert object to primitive value".
Proof. repeat split; by_computation. Qed.

Lemma constructor_requires_credentials_witness :
  cfg_clientSecret missing_secret = None /\
  exists e, constructor missing_secret = Err e /\ ConfigurationError e.
Proof.
  split; [reflexivity |].
  apply constructor_requires_credentials. right. right. left. reflexivity.
Defined.

Lemma request_merges_headers_witness :
  @_getToken plain_engine (warm_state [receipt])
  = (Ok (JStr "abc"), snd (@_getToken plain_engine (warm_state [receipt]))) /\
  (exists req,
     sent (world (snd (@request plain_engine "/sms/v1/outbound" custom_headers
                         (warm_state [receipt])))) = [req] /\
     req_headers req !! "Content-Type" = Some "text/plain" /\
     req_headers req !! "X-Trace" = Some "1" /\
     req_headers req !! "Authorization" = Some "Bearer abc") /\
  (exists req,
     sent (world (snd (@request plain_engine "/sms/v1/outbound" no_options
                         (warm_state [receipt])))) = [req] /\
     req_headers req !! "Authorization" = Some "Bearer abc" /\
     req_headers req !! "Content-Type" = Some "application/json").
Proof.
  assert (Hg : @_getToken plain_engine (warm_state [receipt])
               = (Ok (JStr "abc"), snd (@_getToken plain_engine (warm_state [receipt]))))
    by by_computation.
  split; [exact Hg |]. split.
  - destruct (@request_merges_headers plain_engine "/sms/v1/outbound"
                custom_headers _ _ _ Hg) as (Hsends & Hheaders).
    destruct (Hsends "abc" "https://api.orange-sonatel.com/sms/v1/outbound"
                eq_refl eq_refl) as (req & Hsent).
    destruct (Hheaders req Hsent) as (bearer & Hb & Hcaller & Hauth & _).
    injection Hb as <-.
    exists req. split; [exact Hsent |].
    split; [apply Hcaller; by_computation |].
    split; [apply Hcaller; by_computation |].
    apply Hauth. by_computation.
  - destruct (@request_merges_headers plain_engine "/sms/v1/outbound"
                no_options _ _ _ Hg) as (Hsends & Hheaders).
    destruct (Hsends "abc" "https://api.orange-sonatel.com/sms/v1/outbound"
                eq_refl eq_refl) as (req & Hsent).
    destruct (Hheaders req Hsent) as (bearer & Hb & _ & Hauth & Hct).
    injection Hb as <-.
    exists req. split; [exact Hsent |].
    split; [apply Hauth; by_computation | apply Hct; by_computation].
Defined.


(** * Further properties: shorthands, services, sessions *)

Section Further.
Context {E : Engine}.

Ltac run_methods :=
  unfold _getToken, dispatch, _log, try_catch, bind, ret, throw, lift, this,
    Date_now, fetch, response_json, response_text, set_token,
    set_tokenExpiry, console_log, no_data, elapse;
  cbn [self world fst snd now net sent console token tokenExpiry debug
       clientId clientSecret baseUrl timeout
       with_token with_tokenExpiry logged_truthy truthy negb].

Ltac reduce_state :=
  cbn [self world fst snd now net sent console token tokenExpiry debug
       clientId clientSecret baseUrl timeout
       with_token with_tokenExpiry logged_truthy truthy negb].

Ltac split_conditionals :=
  repeat match goal with
         | |- context [if ?b then _ else _] => destruct b; reduce_state
         end.

Lemma request_after_token (endpoint : string) (options : Options) :
  request endpoint options = bind _getToken (dispatch endpoint options).
Proof. reflexivity. Qed.

(** The conversion to a string has one way to fail. *)
Lemma ToString_error (v : JSValue) (m : string) :
  ToString v = Err m -> m = cannot_convert.
Proof.
  revert m. induction v as [ | | b | n | n e | str | items IH | props]
    using value_induction; intros m; cbn [ToString]; try discriminate.
  - destruct b; discriminate.
  - induction IH as [| x rest Hx _ IHrest]; [discriminate |].
    destruct rest as [| y rest'].
    + destruct x; try discriminate; apply Hx.
    + destruct (match x with JUndefined | JNull => Ok "" | _ => ToString x end)
        as [first | m'] eqn:Hfirst.
      * intros H. apply IHrest. revert H.
        match goal with
        | |- match ?j with Ok _ => _ | Err _ => _ end = _ -> ?k = _ =>
            destruct j; [discriminate | exact (fun H => H)]
        end.
      * intros H. injection H as <-.
        destruct x; try discriminate; exact (Hx _ Hfirst).
  - destruct (has_own "toString" props); [| discriminate].
    intros H. injection H as <-. reflexivity.
Qed.

Lemma append_all_error (params : list (string * JSValue)) (m : string) :
  append_all params = Err m -> m = cannot_convert.
Proof.
  induction params as [| [key value] rest IH]; cbn [append_all]; [discriminate |].
  destruct (ToString value) as [text | m'] eqn:Hv.
  - destruct (append_all rest); [discriminate |].
    intros H. injection H as <-. apply IH. reflexivity.
  - intros H. injection H as <-. exact (ToString_error _ _ Hv).
Qed.

(** Building the resource request fails in one way only: the query or the
    token has no string form. *)
Lemma resource_request_error (c : Client) (access_token : JSValue)
    (endpoint : string) (options : Options) (m : string) :
  resource_request c access_token endpoint options = Err m -> m = cannot_convert.
Proof.
  unfold resource_request, request_url, requestOptions.
  destruct (0 <? Z.of_nat (length _)).
  - destruct (append_all _) as [pairs | m'] eqn:Ha.
    + destruct (ToString access_token) eqn:Ht; [discriminate |].
      intros H. injection H as <-. exact (ToString_error _ _ Ht).
    + intros H. injection H as <-. exact (append_all_error _ _ Ha).
  - destruct (ToString access_token) eqn:Ht; [discriminate |].
    intros H. injection H as <-. exact (ToString_error _ _ Ht).
Qed.

(** What [_getToken] leaves alone. *)
Lemma getToken_frame (s : State) :
  same_config (self s) (self (snd (_getToken s))) /\
  now (world s) <= now (world (snd (_getToken s))) /\
  net (world (snd (_getToken s))) = net (world s) /\
  (debug (self s) = false ->
   console (world (snd (_getToken s))) = console (world s)).
Proof.
  destruct s as [[cid csec burl tmo dbg tok exp] [clock network log cons]].
  run_methods.
  destruct (cached_token_usable _ _); reduce_state.
  { destruct dbg; reduce_state; repeat split; try lia; discriminate. }
  destruct dbg; reduce_state;
    (destruct (outcome (network (length log))) as [m | r]; reduce_state;
     [repeat split; try lia; discriminate |]);
    (destruct (ok r); reduce_state;
     [| repeat split; try lia; discriminate]);
    (destruct (json r) as [data | m]; reduce_state;
     [| repeat split; try lia; discriminate]);
    (destruct (Get data "access_token"); reduce_state;
     [| repeat split; try lia; discriminate]);
    (destruct (Get data "expires_in") as [expires_in | m]; reduce_state;
     [| repeat split; try lia; discriminate]);
    (destruct (ToNumber (js_or expires_in (JNum 3600))); reduce_state;
     repeat split; try lia; discriminate).
Qed.

(** What the resource exchange of [request] does to the state. *)
Lemma dispatch_frame (endpoint : string) (options : Options)
    (access_token : JSValue) (s : State) :
  self (snd (dispatch endpoint options access_token s)) = self s /\
  now (world s) <= now (world (snd (dispatch endpoint options access_token s))) /\
  net (world (snd (dispatch endpoint options access_token s))) = net (world s) /\
  (debug (self s) = false ->
   console (world (snd (dispatch endpoint options access_token s)))
   = console (world s)) /\
  match resource_request (self s) access_token endpoint options with
  | Ok req =>
      sent (world (snd (dispatch endpoint options access_token s)))
      = (sent (world s) ++ [req])%list
  | Err m => dispatch endpoint options access_token s = (Err m, s)
  end.
Proof.
  destruct s as [[cid csec burl tmo dbg tok exp] [clock network log cons]].
  unfold resource_request. run_methods.
  destruct (request_url _ endpoint _) as [url | m]; reduce_state;
    [| repeat split; try lia; discriminate].
  destruct (requestOptions _ access_token url _ _ _) as [init | m]; reduce_state;
    [| repeat split; try lia; discriminate].
  destruct dbg; reduce_state;
    (destruct (outcome (network (length log))) as [m | r]; reduce_state;
     [repeat split; try lia; discriminate |]);
    (destruct (is_json (content_type r)); reduce_state;
     [ destruct (json r) | destruct (text r) ]; reduce_state);
    destruct (ok r); reduce_state; split_conditionals;
    repeat split; try lia; discriminate.
Qed.

Lemma getToken_sent (s : State) :
  sent (world (snd (_getToken s))) = sent (world s) \/
  sent (world (snd (_getToken s))) =
    (sent (world s) ++ [token_request (self s)])%list.
Proof.
  destruct (cached_token_usable (self s) (now (world s))) eqn:Hu.
  - apply usable_iff_valid in Hu.
    destruct (getToken_hit s Hu) as (s' & Hg & _ & _ & _ & Hsent).
    rewrite Hg. left. exact Hsent.
  - apply not_usable_iff_invalid in Hu.
    destruct (getToken_miss s Hu) as (r & s' & Hg & _ & Hsent & _).
    rewrite Hg. right. exact Hsent.
Qed.

Lemma same_config_refl (c : Client) : same_config c c.
Proof. repeat split. Qed.

Lemma same_config_trans (c1 c2 c3 : Client) :
  same_config c1 c2 -> same_config c2 c3 -> same_config c1 c3.
Proof.
  unfold same_config. intros (A1 & A2 & A3 & A4 & A5) (B1 & B2 & B3 & B4 & B5).
  repeat split; congruence.
Qed.

(** What one [request] leaves alone, and how much it sends. *)
Lemma request_frame (endpoint : string) (options : Options) (s : State) :
  same_config (self s) (self (snd (request endpoint options s))) /\
  net (world (snd (request endpoint options s))) = net (world s) /\
  (debug (self s) = false ->
   console (world (snd (request endpoint options s))) = console (world s)) /\
  exists new,
    sent (world (snd (request endpoint options s))) = (sent (world s) ++ new)%list /\
    (length new <= 2)%nat.
Proof.
  rewrite request_after_token. unfold bind.
  pose proof (getToken_frame s) as (Hc & _ & Hn & Hq).
  pose proof (getToken_sent s) as Hs.
  destruct (_getToken s) as [[access_token | e] s1]; cbn [snd] in *.
  - pose proof (dispatch_frame endpoint options access_token s1)
      as (Hc' & _ & Hn' & Hq' & Hs').
    split; [rewrite Hc'; exact Hc |]. split; [congruence |]. split.
    + intros Hd. rewrite Hq' by (destruct Hc as (_ & _ & _ & _ & ->); exact Hd).
      apply Hq. exact Hd.
    + destruct (resource_request (self s1) access_token endpoint options)
        as [req | m].
      * destruct Hs as [Hs | Hs]; rewrite Hs', Hs.
        -- eexists. split; [reflexivity |]. cbn. lia.
        -- eexists. rewrite <- app_assoc. split; [reflexivity |]. cbn. lia.
      * rewrite Hs'. cbn [snd].
        destruct Hs as [Hs | Hs]; rewrite Hs.
        -- exists []. rewrite app_nil_r. split; [reflexivity |]. cbn. lia.
        -- eexists. split; [reflexivity |]. cbn. lia.
  - split; [exact Hc |]. split; [exact Hn |]. split; [exact Hq |].
    destruct Hs as [Hs | Hs]; rewrite Hs.
    + exists []. rewrite app_nil_r. split; [reflexivity |]. cbn. lia.
    + eexists. split; [reflexivity |]. cbn. lia.
Qed.

Ltac rejected := left; eexists; intro; reflexivity.
Ltac delegated :=
  right; do 2 eexists; split; [| intro; reflexivity]; reflexivity.

Ltac convert_all :=
  repeat match goal with
         | |- context [tel ?v] => destruct (tel v); cbn [bind lift]
         | |- context [ToString ?v] => destruct (ToString v); cbn [bind lift]
         | |- context [if truthy ?v then _ else _] => destruct (truthy v)
         end.

(** Every public call either is refused before it has any effect, or is
    one call of [request], with the headers of its caller. *)
Lemma call_shape (call : Call) :
  (exists message, forall s, perform call s = (Err message, s)) \/
  (exists endpoint options,
     match read (opt_headers options) with Some h => h | None => ∅ end
     = caller_headers call /\
     forall s, perform call s = request endpoint options s).
Proof.
  destruct call; cbn [perform caller_headers];
    unfold get, post, put, delete,
      SMSService.sendSMS, SMSService.getDeliveryStatus, SMSService.getHistory,
      SMSService.subscribeToDeliveryNotifications,
      USSDService.sendNotification, USSDService.handleInbound,
      USSDService.subscribeToNotifications, USSDService.cancelSession,
      PaymentService.requestPayment, PaymentService.checkPaymentStatus,
      PaymentService.refundPayment, PaymentService.getTransactionHistory,
      PaymentService.getAccountBalance, PaymentService.subscribeToNotifications,
      get, post, put, delete;
    try delegated.
  all: try (destruct options; unfold bind, lift, throw, ret;
            cbn [Get truthy negb orb];
            try rejected; try delegated;
            repeat match goal with
                   | |- context [negb (truthy ?v)] =>
                       destruct (truthy v); cbn [negb orb]
                   end;
            try rejected; convert_all; try rejected; delegated).
  all: unfold throw, bind, lift;
       match goal with
       | |- context [truthy ?v] => destruct (truthy v); cbn [negb]
       end; [| rejected]; convert_all; try rejected; delegated.
Qed.

Lemma perform_frame (call : Call) (s : State) :
  same_config (self s) (self (snd (perform call s))) /\
  net (world (snd (perform call s))) = net (world s) /\
  (debug (self s) = false ->
   console (world (snd (perform call s))) = console (world s)) /\
  exists new,
    sent (world (snd (perform call s))) = (sent (world s) ++ new)%list /\
    (length new <= 2)%nat.
Proof.
  destruct (call_shape call) as [(message & H) | (endpoint & options & _ & H)];
    rewrite H.
  - cbn [snd]. split; [apply same_config_refl |]. split; [reflexivity |].
    split; [reflexivity |]. exists []. rewrite app_nil_r.
    split; [reflexivity | cbn; lia].
  - apply request_frame.
Qed.

Lemma session_cons (st : Step) (rest : list Step) (s : State) :
  snd (session (st :: rest) s) = snd (session rest (snd (step st s))).
Proof.
  cbn [session]. destruct (step st s) as [results s1]. cbn [snd].
  destruct (session rest s1) as [more s2]. reflexivity.
Qed.

Lemma step_frame (st : Step) (s : State) :
  same_config (self s) (self (snd (step st s))) /\
  net (world (snd (step st s))) = net (world s) /\
  (debug (self s) = false ->
   console (world (snd (step st s))) = console (world s)) /\
  exists new,
    sent (world (snd (step st s))) = (sent (world s) ++ new)%list /\
    (length new <= 2 * calls_in [st])%nat.
Proof.
  destruct st as [call | ms]; cbn [step].
  - pose proof (perform_frame call s) as H.
    destruct (perform call s) as [r s1]. cbn [snd] in *. exact H.
  - cbn [snd self world elapse net console sent].
    split; [apply same_config_refl |]. split; [reflexivity |].
    split; [reflexivity |]. exists []. rewrite app_nil_r.
    split; [reflexivity | cbn; lia].
Qed.

(** X12, configuration. Whatever a session does (any calls of the client
    and of its services, any pauses), the credentials, the base URL, the
    timeout and the debug flag of the client stay what they were, and so
    does the network it talks to. *)
Theorem session_keeps_configuration (steps : list Step) (s : State) :
  same_config (self s) (self (snd (session steps s))) /\
  net (world (snd (session steps s))) = net (world s).
Proof.
  revert s. induction steps as [| st rest IH]; intros s.
  - split; [apply same_config_refl | reflexivity].
  - rewrite session_cons.
    destruct (step_frame st s) as (Hc & Hn & _).
    destruct (IH (snd (step st s))) as (Hc' & Hn').
    split; [exact (same_config_trans _ _ _ Hc Hc') | congruence].
Qed.

(** X13, console. With the debug flag off, no call of a session prints
    anything. *)
Theorem quiet_session_prints_nothing (steps : list Step) (s : State) :
  debug (self s) = false ->
  console (world (snd (session steps s))) = console (world s).
Proof.
  revert s. induction steps as [| st rest IH]; intros s Hd; [reflexivity |].
  rewrite session_cons.
  destruct (step_frame st s) as (Hc & _ & Hq & _).
  rewrite IH.
  - apply Hq. exact Hd.
  - destruct Hc as (_ & _ & _ & _ & ->). exact Hd.
Qed.

(** X15, network use. A session only appends to the requests sent, and at
    most two per call: the token request and the resource request. *)
Theorem session_sends_at_most_two_per_call (steps : list Step) (s : State) :
  exists new,
    sent (world (snd (session steps s))) = (sent (world s) ++ new)%list /\
    (length new <= 2 * calls_in steps)%nat.
Proof.
  revert s. induction steps as [| st rest IH]; intros s.
  - exists []. rewrite app_nil_r. split; [reflexivity | cbn; lia].
  - rewrite session_cons.
    destruct (step_frame st s) as (_ & _ & _ & new1 & Hs1 & Hl1).
    destruct (IH (snd (step st s))) as (new2 & Hs2 & Hl2).
    exists (new1 ++ new2)%list. rewrite Hs2, Hs1, <- app_assoc.
    split; [reflexivity |]. rewrite length_app.
    destruct st; unfold calls_in in *; cbn [List.filter length] in *; lia.
Qed.

Ltac related := repeat split; reflexivity.

Lemma getToken_ignores_debug (s s' : State) :
  same_but_debug s s' ->
  fst (_getToken s') = fst (_getToken s) /\
  same_but_debug (snd (_getToken s)) (snd (_getToken s')).
Proof.
  destruct s as [[cid csec burl tmo dbg tok exp] [clock network log cons]].
  destruct s' as [[cid' csec' burl' tmo' dbg' tok' exp'] [clock' network' log' cons']].
  unfold same_but_debug. reduce_state.
  intros (-> & -> & -> & -> & -> & -> & -> & -> & ->).
  run_methods. unfold token_request, cached_token_usable. reduce_state.
  destruct (truthy tok && _); reduce_state.
  - destruct dbg, dbg'; reduce_state; related.
  - destruct dbg, dbg'; reduce_state;
      (destruct (outcome (network (length log))) as [m | r]; reduce_state;
       [related |]);
      (destruct (ok r); reduce_state; [| related]);
      (destruct (json r) as [data | m]; reduce_state; [| related]);
      (destruct (Get data "access_token"); reduce_state; [| related]);
      (destruct (Get data "expires_in") as [expires_in | m]; reduce_state;
       [| related]);
      (destruct (ToNumber (js_or expires_in (JNum 3600))); reduce_state; related).
Qed.

Lemma dispatch_ignores_debug (endpoint : string) (options : Options)
    (access_token : JSValue) (s s' : State) :
  same_but_debug s s' ->
  fst (dispatch endpoint options access_token s')
  = fst (dispatch endpoint options access_token s) /\
  same_but_debug (snd (dispatch endpoint options access_token s))
    (snd (dispatch endpoint options access_token s')).
Proof.
  destruct s as [[cid csec burl tmo dbg tok exp] [clock network log cons]].
  destruct s' as [[cid' csec' burl' tmo' dbg' tok' exp'] [clock' network' log' cons']].
  unfold same_but_debug. reduce_state.
  intros (-> & -> & -> & -> & -> & -> & -> & -> & ->).
  run_methods. unfold request_url, endpoint_url, requestOptions. reduce_state.
  destruct (0 <? Z.of_nat (length _));
    [destruct (append_all _); reduce_state; [| related] |];
    (destruct (ToString access_token); reduce_state; [| related]);
    (destruct dbg, dbg'; reduce_state;
     (destruct (outcome (network (length log))) as [m | r]; reduce_state;
      [related |]);
     (destruct (is_json (content_type r)); reduce_state;
      [ destruct (json r) | destruct (text r) ]; reduce_state);
     destruct (ok r); reduce_state; split_conditionals; related).
Qed.

Lemma request_ignores_debug (endpoint : string) (options : Options) (s s' : State) :
  same_but_debug s s' ->
  fst (request endpoint options s') = fst (request endpoint options s) /\
  same_but_debug (snd (request endpoint options s)) (snd (request endpoint options s')).
Proof.
  intros H. rewrite request_after_token. unfold bind.
  destruct (getToken_ignores_debug s s' H) as (Hr & Hs).
  destruct (_getToken s) as [r1 s1], (_getToken s') as [r1' s1'].
  cbn [fst snd] in *. subst r1'. destruct r1 as [access_token | e].
  - apply dispatch_ignores_debug. exact Hs.
  - split; [reflexivity | exact Hs].
Qed.

Lemma perform_ignores_debug (call : Call) (s s' : State) :
  same_but_debug s s' ->
  fst (perform call s') = fst (perform call s) /\
  same_but_debug (snd (perform call s)) (snd (perform call s')).
Proof.
  intros H.
  destruct (call_shape call) as [(message & Hc) | (endpoint & options & _ & Hc)];
    rewrite !Hc.
  - split; [reflexivity | exact H].
  - apply request_ignores_debug. exact H.
Qed.

(** X14, debug flag. Two sessions that differ only by the debug flag (and
    by what is already on the console) give the same results call by
    call, send the same requests, read the same clock and end with the
    same cache: the flag decides what is printed and nothing else. *)
Theorem debug_flag_changes_only_the_console (steps : list Step) (s s' : State) :
  same_but_debug s s' ->
  fst (session steps s') = fst (session steps s) /\
  same_but_debug (snd (session steps s)) (snd (session steps s')).
Proof.
  revert s s'. induction steps as [| st rest IH]; intros s s' H.
  - split; [reflexivity | exact H].
  - cbn [session].
    assert (Hst : fst (step st s') = fst (step st s) /\
                  same_but_debug (snd (step st s)) (snd (step st s'))).
    { destruct st as [call | ms]; cbn [step].
      - destruct (perform_ignores_debug call s s' H) as (Hr & Hs).
        destruct (perform call s) as [r1 s1], (perform call s') as [r1' s1'].
        cbn [fst snd] in *. subst. split; [reflexivity | exact Hs].
      - cbn [fst snd]. split; [reflexivity |].
        unfold same_but_debug in *. cbn [self world elapse now net sent].
        destruct H as (? & ? & ? & ? & ? & ? & Hn & ? & ?).
        rewrite Hn. repeat split; assumption. }
    destruct Hst as (Hr & Hs).
    destruct (step st s) as [res s1], (step st s') as [res' s1'].
    cbn [fst snd] in *. subst res'.
    destruct (IH s1 s1' Hs) as (Hr' & Hs').
    destruct (session rest s1) as [more s2], (session rest s1') as [more' s2'].
    cbn [fst snd] in *. subst more'. split; [reflexivity | exact Hs'].
Qed.

Lemma request_self (endpoint : string) (options : Options) (s : State) :
  self (snd (request endpoint options s)) = self (snd (_getToken s)).
Proof.
  rewrite request_after_token. unfold bind.
  destruct (_getToken s) as [[access_token | e] s1]; cbn [snd];
    [apply dispatch_frame | reflexivity].
Qed.

Lemma request_with_valid_token (endpoint : string) (options : Options) (s : State) :
  has_valid_token s ->
  self (snd (request endpoint options s)) = self s /\
  match resource_request (self s) (token (self s)) endpoint options with
  | Ok req =>
      sent (world (snd (request endpoint options s))) = (sent (world s) ++ [req])%list
  | Err m =>
      fst (request endpoint options s) = Err m /\
      sent (world (snd (request endpoint options s))) = sent (world s)
  end.
Proof.
  intros Hv.
  destruct (getToken_hit s Hv) as (s1 & Hg & Hself & _ & _ & Hsent).
  rewrite request_after_token. unfold bind. rewrite Hg.
  pose proof (dispatch_frame endpoint options (token (self s)) s1)
    as (Hc & _ & _ & _ & Hd).
  rewrite Hself in Hd. split; [congruence |].
  destruct (resource_request (self s) (token (self s)) endpoint options)
    as [req | m].
  - rewrite Hd, Hsent. reflexivity.
  - rewrite Hd. cbn [fst snd]. split; [reflexivity | exact Hsent].
Qed.

Lemma with_own_token (c : Client) : with_token (token c) c = c.
Proof. destruct c. reflexivity. Qed.

Lemma failed_getToken_message (s s' : State) (e : string) :
  _getToken s = (Err e, s') ->
  ~ has_valid_token s /\
  starts_with "Failed to get authentication token: " e /\
  (exists stored, self s' = with_token stored (self s)) /\
  sent (world s') = (sent (world s) ++ [token_request (self s)])%list.
Proof.
  intros Hg.
  destruct (cached_token_usable (self s) (now (world s))) eqn:Hu.
  - apply usable_iff_valid in Hu.
    destruct (getToken_hit s Hu) as (s1 & Hg1 & _). congruence.
  - apply not_usable_iff_invalid in Hu. split; [exact Hu |].
    destruct (getToken_miss s Hu) as (r & s1 & Hg1 & Hacq & Hsent & _).
    rewrite Hg in Hg1. injection Hg1 as <- <-.
    split; [| split; [| exact Hsent]].
    + inversion Hacq; eexists; reflexivity.
    + inversion Hacq; subst; try discriminate;
        first [ exists (token (self s)); rewrite with_own_token; congruence
              | eexists; reflexivity ].
Qed.

(** X3, network trace of [request]. With a valid cached token, [request]
    sends the resource request alone; when the token exchange fails it
    sends the token request alone; otherwise it sends the token request
    and then the resource request, built with the new token. When the
    token, or a query parameter, has no string form there is no resource
    request to send: [request] throws the conversion error as it is, in
    the state the token exchange left. *)
Theorem request_network_trace (endpoint : string) (options : Options) (s : State) :
  (has_valid_token s ->
   forall req,
     resource_request (self s) (token (self s)) endpoint options = Ok req ->
     sent (world (snd (request endpoint options s))) = (sent (world s) ++ [req])%list) /\
  (forall e s1,
     _getToken s = (Err e, s1) ->
     sent (world (snd (request endpoint options s))) =
       (sent (world s) ++ [token_request (self s)])%list) /\
  (~ has_valid_token s ->
   forall access_token s1 req,
     _getToken s = (Ok access_token, s1) ->
     resource_request (self s1) access_token endpoint options = Ok req ->
     sent (world (snd (request endpoint options s))) =
       (sent (world s) ++ [token_request (self s); req])%list) /\
  (forall access_token s1 m,
     _getToken s = (Ok access_token, s1) ->
     resource_request (self s1) access_token endpoint options = Err m ->
     request endpoint options s = (Err cannot_convert, s1)).
Proof.
  split; [| split; [| split]].
  - intros Hv req Hreq.
    pose proof (request_with_valid_token endpoint options s Hv) as (_ & H).
    rewrite Hreq in H. exact H.
  - intros e s1 Hg.
    rewrite (request_without_token endpoint options s s1 e Hg). cbn [snd].
    apply (failed_getToken_message s s1 e Hg).
  - intros Hv access_token s1 req Hg Hreq.
    destruct (getToken_miss s Hv) as (r & s1' & Hg' & _ & Hsent & _).
    rewrite Hg in Hg'. injection Hg' as <- <-.
    destruct (request_with_token endpoint options s s1 access_token req Hg Hreq)
      as (r' & s2 & Hr & _ & _ & Hsent2).
    rewrite Hr. cbn [snd]. rewrite Hsent2, Hsent, <- app_assoc. reflexivity.
  - intros access_token s1 m Hg Hreq.
    rewrite (request_unprintable endpoint options s s1 access_token m Hg Hreq).
    rewrite (resource_request_error _ _ _ _ _ Hreq). reflexivity.
Qed.

(** X4, cache and responses. [request] changes the cache only through the
    token exchange: the client after [request] is the client after
    [_getToken]. With a valid cached token the client is left exactly as
    it was, whatever the response; a failing status does not evict the
    token. *)
Theorem response_never_touches_cache (endpoint : string) (options : Options)
    (s : State) :
  self (snd (request endpoint options s)) = self (snd (_getToken s)) /\
  (has_valid_token s -> self (snd (request endpoint options s)) = self s).
Proof.
  split; [apply request_self |].
  intros Hv. apply request_with_valid_token. exact Hv.
Qed.

(** X16, kinds of failure. A public call that fails does so in one of four
    ways. It is refused with the state untouched. Or the token exchange
    failed: the message starts with "Failed to get authentication
    token: ", only the token request was sent, and the client is as
    before but for its token, which an exchange that failed on the
    conversion of [expires_in] has replaced. Or the token was obtained
    and the token or a query parameter has no string form: the message is
    that of the conversion error, and nothing was sent after the token
    exchange. Or the resource exchange failed: the message starts with
    "API request failed: " and the resource request was the last one
    sent. *)
Theorem failed_call_kinds (call : Call) (s s' : State) (e : string) :
  perform call s = (Err e, s') ->
  s' = s \/
  (starts_with "Failed to get authentication token: " e /\
   (exists stored, self s' = with_token stored (self s)) /\
   sent (world s') = (sent (world s) ++ [token_request (self s)])%list) \/
  (e = cannot_convert /\
   exists access_token, _getToken s = (Ok access_token, s')) \/
  (starts_with "API request failed: " e /\
   exists access_token s1 req,
     _getToken s = (Ok access_token, s1) /\
     self s' = self s1 /\
     sent (world s') = (sent (world s1) ++ [req])%list).
Proof.
  intros Hp.
  destruct (call_shape call) as [(message & Hc) | (endpoint & options & _ & Hc)];
    rewrite Hc in Hp.
  - left. congruence.
  - right. destruct (_getToken s) as [[access_token | e0] s1] eqn:Hg.
    + right.
      destruct (resource_request (self s1) access_token endpoint options)
        as [req | m] eqn:Hreq.
      * right.
        destruct (request_with_token endpoint options s s1 access_token req Hg Hreq)
          as (r & s2 & Hr & Hd & Hself & Hsent).
        rewrite Hr in Hp. injection Hp as -> ->.
        split.
        -- inversion Hd; eexists; reflexivity.
        -- exists access_token, s1, req. auto.
      * left.
        rewrite (request_unprintable endpoint options s s1 access_token m Hg Hreq)
          in Hp.
        injection Hp as <- <-.
        split; [exact (resource_request_error _ _ _ _ _ Hreq) |].
        exists access_token. reflexivity.
    + left.
      rewrite (request_without_token endpoint options s s1 e0 Hg) in Hp.
      injection Hp as <- <-.
      destruct (failed_getToken_message s s1 e0 Hg) as (_ & H1 & H2 & H3). auto.
Qed.

(** X17, one cache for all services. While a valid token is cached, any
    public call (of the client or of a service) leaves the client as it
    is and sends at most one request. The request it sends has the
    timeout of the client and, for headers, those of the caller laid
    over the JSON content type and the cached token as bearer: every
    service call carries the cached token, and so does a call of the
    client whose caller sets no Authorization header of its own. A cached
    token without string form is never sent. *)
Theorem valid_token_serves_every_call (call : Call) (s : State) :
  has_valid_token s ->
  self (snd (perform call s)) = self s /\
  (sent (world (snd (perform call s))) = sent (world s) \/
   exists req bearer,
     sent (world (snd (perform call s))) = (sent (world s) ++ [req])%list /\
     ToString (token (self s)) = Ok bearer /\
     req_headers req = caller_headers call ∪ default_headers bearer /\
     req_timeout req = timeout (self s) /\
     (caller_headers call !! "Authorization" = None ->
      req_headers req !! "Authorization" = Some ("Bearer " +:+ bearer))) /\
  (forall m, ToString (token (self s)) = Err m ->
     sent (world (snd (perform call s))) = sent (world s)).
Proof.
  intros Hv.
  destruct (call_shape call) as [(message & Hc) | (endpoint & options & Hh & Hc)];
    rewrite Hc.
  - split; [reflexivity |]. split; [left; reflexivity | reflexivity].
  - destruct (request_with_valid_token endpoint options s Hv) as (Hself & Hsent).
    split; [exact Hself |].
    destruct (resource_request (self s) (token (self s)) endpoint options)
      as [req | m] eqn:Hreq.
    + apply resource_request_Ok in Hreq as (url & bearer & _ & Hb & Hreq).
      split.
      * right. exists req, bearer. split; [exact Hsent |]. split; [exact Hb |].
        subst req. cbn [req_headers req_timeout]. rewrite Hh.
        split; [reflexivity |]. split; [reflexivity |].
        intros Hnone. rewrite lookup_union_r by exact Hnone.
        apply default_headers_Authorization.
      * intros m Hm. congruence.
    + split; [left; apply Hsent |]. intros _ _. apply Hsent.
Qed.

Lemma sent_by_request (endpoint : string) (options : Options)
    (s s1 : State) (access_token : JSValue) (req : Request) :
  _getToken s = (Ok access_token, s1) ->
  resource_request (self s1) access_token endpoint options = Ok req ->
  sent (world (snd (request endpoint options s))) = (sent (world s1) ++ [req])%list.
Proof.
  intros Hg Hreq.
  destruct (request_with_token endpoint options s s1 access_token req Hg Hreq)
    as (r & s2 & Hr & _ & _ & Hsent).
  rewrite Hr. exact Hsent.
Qed.

Lemma endpoint_url_slash (c : Client) (endpoint : string) :
  startsWith endpoint "/" = false ->
  endpoint_url c ("/" +:+ endpoint) = endpoint_url c endpoint.
Proof.
  intros H. unfold endpoint_url. rewrite H.
  assert (Hs : startsWith ("/" +:+ endpoint) "/" = true)
    by (destruct endpoint; reflexivity).
  rewrite Hs. reflexivity.
Qed.

Lemma request_url_slash (c : Client) (endpoint : string)
    (params : list (string * JSValue)) :
  startsWith endpoint "/" = false ->
  request_url c ("/" +:+ endpoint) params = request_url c endpoint params.
Proof.
  intros H. unfold request_url. rewrite endpoint_url_slash by exact H. reflexivity.
Qed.

(** X5, leading slash. An endpoint written without its leading slash is
    the same call as the endpoint written with it: same result, same
    state afterwards. *)
Theorem request_adds_leading_slash (endpoint : string) (options : Options)
    (s : State) :
  startsWith endpoint "/" = false ->
  request endpoint options s = request ("/" +:+ endpoint) options s.
Proof.
  intros H. rewrite !request_after_token. unfold bind.
  destruct (_getToken s) as [[access_token | e] s1]; [| reflexivity].
  unfold dispatch, bind, this, lift. cbv beta.
  rewrite !request_url_slash by exact H. reflexivity.
Qed.

(** X6, request body. In the resource request that [request] sends, the
    method is GET when [options] gives none, [undefined] or an empty
    one; a GET never carries a body; a falsy [data] (absent, null, 0,
    false, the empty string) is never sent; in every other case the body
    is [data]. *)
Theorem request_body_rule (endpoint : string) (options : Options)
    (s s1 : State) (access_token : JSValue) (req : Request) :
  _getToken s = (Ok access_token, s1) ->
  sent (world (snd (request endpoint options s))) = (sent (world s1) ++ [req])%list ->
  let data := read_value (opt_data options) in
  (opt_method options = Absent \/ opt_method options = Undefined \/
   opt_method options = Given "" ->
   req_method req = "GET") /\
  (forall m, opt_method options = Given m -> m <> "" -> req_method req = m) /\
  (req_method req = "GET" -> req_body req = None) /\
  (truthy data = false -> req_body req = None) /\
  (req_method req <> "GET" -> truthy data = true ->
   req_body req = Some (JsonBody data)).
Proof.
  intros Hg Hsent data.
  apply (request_sent_inv endpoint options s s1 access_token req Hg) in Hsent.
  apply resource_request_Ok in Hsent as (url & bearer & _ & _ & ->).
  cbn [req_method req_body]. fold data.
  split; [| split; [| split; [| split]]].
  - intros [-> | [-> | ->]]; reflexivity.
  - intros m -> Hm. cbn [read str_or].
    destruct (String.eqb_spec m ""); [contradiction | reflexivity].
  - intros ->. reflexivity.
  - intros Hd. unfold js_or. rewrite Hd. cbn [truthy].
    rewrite andb_false_r. reflexivity.
  - intros Hm Hd. unfold js_or. rewrite Hd.
    destruct (String.eqb_spec (str_or (read (opt_method options)) "GET") "GET");
      [contradiction |].
    cbn [negb andb]. rewrite Hd. reflexivity.
Qed.

Lemma idle_valid_iff (s : State) (ms : N) (expiresAt : Z) :
  truthy (token (self s)) = true ->
  tokenExpiry (self s) = Some (ValidDate expiresAt) ->
  has_valid_token (idle ms s) <-> now (world s) + Z.of_N ms < expiresAt.
Proof.
  intros Ht He. unfold has_valid_token. cbn [idle self world elapse now].
  rewrite Ht, He. split.
  - intros (_ & e & Heq & Hlt). injection Heq as <-. exact Hlt.
  - intros Hlt. split; [reflexivity |]. exists expiresAt. auto.
Qed.

(** X8, lifetime. After a token exchange that stores a truthy token with a
    duration of [d] seconds ([expires_in], or 3600), the token is served
    from the cache at every clock strictly less than [d * 1000] ms after
    the exchange, and at no later one: at the expiry itself it is already
    refetched; a duration of 0 or less is never served. *)
Theorem token_lifetime_window (s : State) (r : Response)
    (data access_token expires_in : JSValue) (d : Z) :
  ~ has_valid_token s ->
  outcome (net (world s) (length (sent (world s)))) = Resolved r ->
  ok r = true ->
  json r = Ok data ->
  Get data "access_token" = Ok access_token ->
  truthy access_token = true ->
  Get data "expires_in" = Ok expires_in ->
  ToNumber (js_or expires_in (JNum 3600)) = Ok (Int d) ->
  Z.abs (now (world (snd (_getToken s))) + d * 1000) <= max_time ->
  forall ms : N,
    has_valid_token (idle ms (snd (_getToken s))) <-> Z.of_N ms < d * 1000.
Proof.
  intros Hv Ho Hok Hj Ht Htruthy He Hd Hrange ms.
  destruct (getToken_stores s r data access_token expires_in (Int d)
              Hv Ho Hok Hj Ht He Hd)
    as (s' & Hg & _ & Htok & Hexp).
  rewrite Hg in *. cbn [snd] in *.
  cbn [num_mul num_add new_Date] in Hexp.
  apply Z.leb_le in Hrange. rewrite Hrange in Hexp.
  rewrite (idle_valid_iff s' ms _ ltac:(rewrite Htok; exact Htruthy) Hexp). lia.
Qed.


Lemma falsy_str_false (o : option string) :
  falsy_str o = false <-> exists s, o = Some s /\ s <> "".
Proof.
  unfold falsy_str. destruct o as [s |].
  - destruct (String.eqb_spec s ""); split.
    + discriminate.
    + intros (s' & Hs & Hne). injection Hs as <-. contradiction.
    + intros _. eauto.
    + reflexivity.
  - split; [discriminate | intros (s & Hs & _); discriminate].
Qed.

Lemma str_or_nonempty (o : option string) (d : string) :
  d <> "" -> str_or o d <> "".
Proof.
  intros Hd. unfold str_or. destruct o as [s |]; [| exact Hd].
  destruct (String.eqb_spec s ""); assumption.
Qed.

(** X1, constructed client. A client that the constructor returns holds
    the credentials of the configuration, both non-empty, a non-empty
    base URL and a non-zero timeout (an empty base URL or a timeout of 0
    in the configuration is replaced by the default), and an empty
    cache. *)
Theorem constructed_client_is_well_formed (config : Config) (c : Client) :
  constructor config = Ok c ->
  cfg_clientId config = Some (clientId c) /\ clientId c <> "" /\
  cfg_clientSecret config = Some (clientSecret c) /\ clientSecret c <> "" /\
  baseUrl c <> "" /\ timeout c <> 0 /\
  (forall url, cfg_baseUrl config = Some url -> url <> "" -> baseUrl c = url) /\
  (forall ms, cfg_timeout config = Some ms -> ms <> 0 -> timeout c = ms) /\
  cache_empty c.
Proof.
  unfold constructor.
  destruct (falsy_str (cfg_clientId config)) eqn:Hid; [discriminate |].
  destruct (falsy_str (cfg_clientSecret config)) eqn:Hsec; [discriminate |].
  cbn [orb]. intros Hc. injection Hc as <-. cbn.
  apply falsy_str_false in Hid as (id & Hid & Hidne).
  apply falsy_str_false in Hsec as (sec & Hsec & Hsecne).
  rewrite Hid, Hsec. cbn [str_or].
  destruct (String.eqb_spec id ""); [contradiction |].
  destruct (String.eqb_spec sec ""); [contradiction |].
  repeat split; try assumption.
  - apply str_or_nonempty. discriminate.
  - unfold int_or. destruct (cfg_timeout config) as [ms |]; [| discriminate].
    destruct (Z.eqb_spec ms 0); [discriminate | assumption].
  - intros url -> Hne. cbn [str_or].
    destruct (String.eqb_spec url ""); [contradiction | reflexivity].
  - intros ms -> Hne. cbn [int_or].
    destruct (Z.eqb_spec ms 0); [contradiction | reflexivity].
Qed.

(** X2, createClient. [createClient] returns a client and its services
    exactly when both credentials are present and non-empty; the client
    is the one the constructor builds; otherwise it throws the
    constructor's error and no service is made. *)
Theorem createClient_succeeds_iff (config : Config) :
  ((exists bundle, createClient config = Ok bundle) <->
   (exists id secret,
      cfg_clientId config = Some id /\ id <> "" /\
      cfg_clientSecret config = Some secret /\ secret <> "")) /\
  (forall bundle, createClient config = Ok bundle ->
     constructor config = Ok (api bundle)) /\
  (forall e, createClient config = Err e -> ConfigurationError e).
Proof.
  unfold createClient, constructor.
  destruct (falsy_str (cfg_clientId config)) eqn:Hid;
    destruct (falsy_str (cfg_clientSecret config)) eqn:Hsec; cbn [orb].
  4: { apply falsy_str_false in Hid as (id & Hid & Hidne).
       apply falsy_str_false in Hsec as (sec & Hsec & Hsecne).
       split; [split; [intros _; exists id, sec; auto | intros _; eauto] |].
       split; [intros bundle Hb; injection Hb as <-; reflexivity | discriminate]. }
  all: split; [split; [intros (b & Hb); discriminate |] |
               split; [discriminate | intros e He; injection He as <-; reflexivity]].
  all: intros (id & sec & Hi & Hine & Hs & Hsne).
  all: assert (Hid' : falsy_str (cfg_clientId config) = false)
         by (apply falsy_str_false; eauto).
  all: assert (Hsec' : falsy_str (cfg_clientSecret config) = false)
         by (apply falsy_str_false; eauto).
  all: congruence.
Qed.

Lemma prefix_append (p rest : string) : String.prefix p (p +:+ rest) = true.
Proof.
  induction p as [| a p IH].
  - destruct rest; reflexivity.
  - change (String a p +:+ rest) with (String a (p +:+ rest)).
    cbn [String.prefix].
    destruct (ascii_dec a a); [exact IH | contradiction].
Qed.

Lemma includes_middle (before search after : string) :
  includes (before +:+ search +:+ after) search = true.
Proof.
  induction before as [| a before IH].
  - change ("" +:+ search +:+ after) with (search +:+ after).
    destruct (search +:+ after) eqn:Heq; cbn [includes];
      rewrite <- Heq, prefix_append; reflexivity.
  - change (String a before +:+ search +:+ after)
      with (String a (before +:+ search +:+ after)).
    cbn [includes]. rewrite IH. apply orb_true_r.
Qed.

(** X7, content type with parameters. When [request] has sent its resource
    request, a success response whose content type contains
    "application/json" anywhere, for instance followed by a charset, is
    decoded as JSON. *)
Theorem json_content_type_may_carry_parameters (endpoint : string)
    (options : Options) (s s1 : State) (access_token : JSValue) (req : Request)
    (r : Response) (before after : string) (v : JSValue) :
  _getToken s = (Ok access_token, s1) ->
  sent (world (snd (request endpoint options s))) = (sent (world s1) ++ [req])%list ->
  outcome (net (world s1) (length (sent (world s1)))) = Resolved r ->
  ok r = true ->
  content_type r = Some (before +:+ "application/json" +:+ after) ->
  json r = Ok v ->
  fst (request endpoint options s) = Ok v.
Proof.
  intros Hg Hsent Ho Hok Hct Hj.
  apply (request_sent_inv endpoint options s s1 access_token req Hg) in Hsent.
  rewrite (request_result endpoint options s s1 access_token req r Hg Hsent Ho).
  assert (Hi : is_json (content_type r) = true).
  { apply is_json_iff. eexists. split; [exact Hct | apply includes_middle]. }
  unfold decoded. rewrite Hi, Hj, Hok. reflexivity.
Qed.

Lemma no_caller_headers (bearer : string) :
  (∅ : gmap string string) ∪ default_headers bearer = default_headers bearer.
Proof. apply (left_id_L ∅ (∪)). Qed.

Lemma request_url_no_params (c : Client) (path : string) :
  request_url c path [] = Ok (endpoint_url c path).
Proof. reflexivity. Qed.

Lemma endpoint_url_rooted (c : Client) (path : string) :
  startsWith path "/" = true -> endpoint_url c path = baseUrl c +:+ path.
Proof. intros H. unfold endpoint_url. rewrite H. reflexivity. Qed.

(** What a shorthand called without [options] sends on a valid token. *)
Lemma get_sends (path : string) (params : list (string * JSValue)) (s : State)
    (bearer url : string) :
  has_valid_token s ->
  ToString (token (self s)) = Ok bearer ->
  request_url (self s) path params = Ok url ->
  self (snd (get path params no_overrides s)) = self s /\
  sent (world (snd (get path params no_overrides s))) =
    (sent (world s)
     ++ [{| req_url := url;
            req_method := "GET";
            req_headers := default_headers bearer;
            req_body := None;
            req_timeout := timeout (self s) |}])%list.
Proof.
  intros Hv Hb Hu. unfold get.
  destruct (request_with_valid_token path
              {| opt_method := spread "GET" (opt_method no_overrides);
                 opt_params := spread params (opt_params no_overrides);
                 opt_data := opt_data no_overrides;
                 opt_headers := opt_headers no_overrides |} s Hv) as (Hself & Hsent).
  split; [exact Hself |].
  unfold resource_request, requestOptions in Hsent.
  cbn [opt_method opt_params opt_data opt_headers no_overrides spread read
       read_value str_or String.eqb Ascii.eqb Bool.eqb negb andb] in Hsent.
  rewrite Hu, Hb, no_caller_headers in Hsent. exact Hsent.
Qed.

Lemma post_sends (verb path : string) (data : JSValue) (s : State)
    (bearer : string) :
  has_valid_token s ->
  ToString (token (self s)) = Ok bearer ->
  verb <> "" -> verb <> "GET" ->
  let sends (call : M JSValue) :=
    self (snd (call s)) = self s /\
    sent (world (snd (call s))) =
      (sent (world s)
       ++ [{| req_url := endpoint_url (self s) path;
              req_method := verb;
              req_headers := default_headers bearer;
              req_body := if truthy data then Some (JsonBody data) else None;
              req_timeout := timeout (self s) |}])%list in
  sends (request path
           {| opt_method := Given verb; opt_params := Absent;
              opt_data := Given data; opt_headers := Absent |}).
Proof.
  intros Hv Hb Hne Hget sends. unfold sends.
  destruct (request_with_valid_token path
              {| opt_method := Given verb; opt_params := Absent;
                 opt_data := Given data; opt_headers := Absent |} s Hv)
    as (Hself & Hsent).
  split; [exact Hself |].
  unfold resource_request, requestOptions in Hsent.
  cbn [opt_method opt_params opt_data opt_headers read read_value str_or] in Hsent.
  rewrite request_url_no_params, Hb, no_caller_headers in Hsent.
  destruct (String.eqb_spec verb ""); [contradiction |].
  destruct (String.eqb_spec verb "GET"); [contradiction |].
  cbn [negb andb] in Hsent. unfold js_or in Hsent.
  destruct (truthy data) eqn:Hd; [rewrite Hd in Hsent |]; exact Hsent.
Qed.

Lemma delete_sends (path : string) (s : State) (bearer : string) :
  has_valid_token s ->
  ToString (token (self s)) = Ok bearer ->
  self (snd (delete path no_overrides s)) = self s /\
  sent (world (snd (delete path no_overrides s))) =
    (sent (world s)
     ++ [{| req_url := endpoint_url (self s) path;
            req_method := "DELETE";
            req_headers := default_headers bearer;
            req_body := None;
            req_timeout := timeout (self s) |}])%list.
Proof.
  intros Hv Hb. unfold delete.
  destruct (request_with_valid_token path
              {| opt_method := spread "DELETE" (opt_method no_overrides);
                 opt_params := opt_params no_overrides;
                 opt_data := opt_data no_overrides;
                 opt_headers := opt_headers no_overrides |} s Hv) as (Hself & Hsent).
  split; [exact Hself |].
  unfold resource_request, requestOptions in Hsent.
  cbn [opt_method opt_params opt_data opt_headers no_overrides spread read
       read_value str_or String.eqb Ascii.eqb Bool.eqb negb andb] in Hsent.
  rewrite request_url_no_params, Hb, no_caller_headers in Hsent. exact Hsent.
Qed.

(** X10, shorthands. Called with no [options] on a client that holds a
    valid token with a string form, [get] sends one GET with the query of
    its [params] (when these have a string form) and no body, [delete]
    one DELETE with no body, and [post] and [put] one POST or PUT whose
    body is [data], or no body at all when [data] is falsy (null, 0,
    false, the empty string, absent). Each carries the cached token and
    the JSON content type, and leaves the client as it was. *)
Theorem shorthands_send_one_request (path : string)
    (params : list (string * JSValue)) (data : JSValue) (s : State)
    (bearer : string) :
  has_valid_token s ->
  ToString (token (self s)) = Ok bearer ->
  let wire method url body :=
    {| req_url := url; req_method := method;
       req_headers := default_headers bearer;
       req_body := body; req_timeout := timeout (self s) |} in
  let body := if truthy data then Some (JsonBody data) else None in
  (forall url,
     request_url (self s) path params = Ok url ->
     sent (world (snd (get path params no_overrides s)))
     = (sent (world s) ++ [wire "GET" url None])%list) /\
  sent (world (snd (delete path no_overrides s)))
  = (sent (world s) ++ [wire "DELETE" (endpoint_url (self s) path) None])%list /\
  sent (world (snd (post path data no_overrides s)))
  = (sent (world s) ++ [wire "POST" (endpoint_url (self s) path) body])%list /\
  sent (world (snd (put path data no_overrides s)))
  = (sent (world s) ++ [wire "PUT" (endpoint_url (self s) path) body])%list /\
  self (snd (get path params no_overrides s)) = self s /\
  self (snd (delete path no_overrides s)) = self s /\
  self (snd (post path data no_overrides s)) = self s /\
  self (snd (put path data no_overrides s)) = self s.
Proof.
  intros Hv Hb wire body.
  destruct (delete_sends path s bearer Hv Hb) as (Hd1 & Hd2).
  destruct (post_sends "POST" path data s bearer Hv Hb
              ltac:(discriminate) ltac:(discriminate)) as (Hp1 & Hp2).
  destruct (post_sends "PUT" path data s bearer Hv Hb
              ltac:(discriminate) ltac:(discriminate)) as (Hu1 & Hu2).
  split; [| repeat split; try assumption].
  - intros url Hu. apply (get_sends path params s bearer url Hv Hb Hu).
  - apply (proj1 (request_with_valid_token _ _ s Hv)).
Qed.

Lemma sent_by_options (endpoint : string) (options : Options)
    (s s1 : State) (access_token : JSValue) (bearer url : string) :
  _getToken s = (Ok access_token, s1) ->
  ToString access_token = Ok bearer ->
  request_url (self s1) endpoint
    (match read (opt_params options) with Some p => p | None => [] end) = Ok url ->
  sent (world (snd (request endpoint options s))) =
    (sent (world s1)
     ++ [{| req_url := url;
            req_method := str_or (read (opt_method options)) "GET";
            req_headers :=
              (match read (opt_headers options) with Some h => h | None => ∅ end)
              ∪ default_headers bearer;
            req_body :=
              if negb (String.eqb (str_or (read (opt_method options)) "GET") "GET")
                 && truthy (js_or (read_value (opt_data options)) JNull)
              then Some (JsonBody (js_or (read_value (opt_data options)) JNull))
              else None;
            req_timeout := timeout (self s1) |}])%list.
Proof.
  intros Hg Hb Hu. apply (sent_by_request endpoint options s s1 access_token _ Hg).
  apply resource_request_Ok. exists url, bearer. auto.
Qed.

(** X11, overriding a shorthand. The verb of a shorthand is only a
    default: a method given in [options] replaces it; an empty one, or
    one given as [undefined], turns [post], [put] and [delete] into a GET
    without body; params given in [options] replace the [params] argument
    of [get] instead of being merged with it; data given in [options]
    replace the [data] argument of [post] and [put], and data given as
    [undefined] remove it. *)
Theorem options_override_shorthands (path : string)
    (params : list (string * JSValue)) (data : JSValue) (options : Options)
    (s s1 : State) (access_token : JSValue) (bearer query given_query : string) :
  _getToken s = (Ok access_token, s1) ->
  ToString access_token = Ok bearer ->
  request_url (self s1) path
    (match read (spread params (opt_params options)) with
     | Some p => p
     | None => []
     end) = Ok query ->
  request_url (self s1) path
    (match read (opt_params options) with Some p => p | None => [] end)
  = Ok given_query ->
  exists by_get by_post by_put by_delete,
    sent (world (snd (get path params options s)))
    = (sent (world s1) ++ [by_get])%list /\
    sent (world (snd (post path data options s)))
    = (sent (world s1) ++ [by_post])%list /\
    sent (world (snd (put path data options s)))
    = (sent (world s1) ++ [by_put])%list /\
    sent (world (snd (delete path options s)))
    = (sent (world s1) ++ [by_delete])%list /\
    (forall m, opt_method options = Given m -> m <> "" ->
       req_method by_get = m /\ req_method by_post = m /\
       req_method by_put = m /\ req_method by_delete = m) /\
    (opt_method options = Given "" \/ opt_method options = Undefined ->
       req_method by_post = "GET" /\ req_body by_post = None /\
       req_method by_put = "GET" /\ req_body by_put = None /\
       req_method by_delete = "GET" /\ req_body by_delete = None) /\
    (req_url by_get = query /\
     (opt_params options = Absent -> request_url (self s1) path params = Ok query) /\
     (forall p, opt_params options = Given p ->
        request_url (self s1) path p = Ok query)) /\
    (opt_method options = Absent ->
     forall d, opt_data options = Given d -> truthy d = true ->
       req_body by_post = Some (JsonBody d) /\
       req_body by_put = Some (JsonBody d)) /\
    (opt_data options = Undefined ->
       req_body by_post = None /\ req_body by_put = None).
Proof.
  intros Hg Hb Hq Hgq. unfold get, post, put, delete. do 4 eexists.
  split;
    [apply (sent_by_options path
              {| opt_method := spread "GET" (opt_method options);
                 opt_params := spread params (opt_params options);
                 opt_data := opt_data options;
                 opt_headers := opt_headers options |}
              s s1 access_token bearer query Hg Hb Hq) |].
  split;
    [apply (sent_by_options path
              {| opt_method := spread "POST" (opt_method options);
                 opt_params := opt_params options;
                 opt_data := spread data (opt_data options);
                 opt_headers := opt_headers options |}
              s s1 access_token bearer given_query Hg Hb Hgq) |].
  split;
    [apply (sent_by_options path
              {| opt_method := spread "PUT" (opt_method options);
                 opt_params := opt_params options;
                 opt_data := spread data (opt_data options);
                 opt_headers := opt_headers options |}
              s s1 access_token bearer given_query Hg Hb Hgq) |].
  split;
    [apply (sent_by_options path
              {| opt_method := spread "DELETE" (opt_method options);
                 opt_params := opt_params options;
                 opt_data := opt_data options;
                 opt_headers := opt_headers options |}
              s s1 access_token bearer given_query Hg Hb Hgq) |].
  cbn [req_method req_body req_url opt_method opt_params opt_data opt_headers].
  split; [| split; [| split; [| split]]].
  - intros m -> Hm. cbn [spread read str_or].
    destruct (String.eqb_spec m ""); [contradiction |]. auto.
  - intros [-> | ->]; repeat split; reflexivity.
  - split; [reflexivity |]. split.
    + intros Ha. rewrite Ha in Hq. exact Hq.
    + intros p Hp. rewrite Hp in Hq. exact Hq.
  - intros -> d -> Hd.
    cbn [spread read read_value str_or String.eqb Ascii.eqb Bool.eqb negb andb].
    unfold js_or. rewrite Hd, Hd. split; reflexivity.
  - intros ->. cbn [spread read_value]. unfold js_or. cbn [truthy].
    rewrite !andb_false_r. split; reflexivity.
Qed.

Lemma both_truthy (a b : JSValue) :
  truthy a && truthy b = false ->
  negb (truthy a) || negb (truthy b) = true.
Proof. destruct (truthy a), (truthy b); cbn; congruence. Qed.

Lemma all_three_truthy (a b c : JSValue) :
  truthy a && truthy b && truthy c = false ->
  negb (truthy a) || negb (truthy b) || negb (truthy c) = true.
Proof. destruct (truthy a), (truthy b), (truthy c); cbn; congruence. Qed.

(** X19, SMS validation. [sendSMS] without a truthy recipient and message,
    [getDeliveryStatus] without a truthy id and
    [subscribeToDeliveryNotifications] without a truthy notify URL fail
    with their own message and leave the state untouched: no token is
    fetched and nothing is sent. Called with [undefined] or [null] for
    [options] they fail reading it, again without effect, while
    [getHistory] takes [undefined] for the empty object. *)
Theorem sms_refuses_incomplete_options (service : SMSService.t) (s : State) :
  (forall options recipient message,
     Get options "recipient" = Ok recipient ->
     Get options "message" = Ok message ->
     truthy recipient && truthy message = false ->
     SMSService.sendSMS service options s
     = (Err "Recipient and message are required", s)) /\
  (forall messageId,
     truthy messageId = false ->
     SMSService.getDeliveryStatus service messageId s
     = (Err "Message ID is required", s)) /\
  (forall options notifyUrl,
     Get options "notifyUrl" = Ok notifyUrl ->
     truthy notifyUrl = false ->
     SMSService.subscribeToDeliveryNotifications service options s
     = (Err "Notify URL is required", s)) /\
  (forall options,
     options = JUndefined \/ options = JNull ->
     (exists m, SMSService.sendSMS service options s = (Err m, s)) /\
     (exists m, SMSService.subscribeToDeliveryNotifications service options s
                = (Err m, s))) /\
  (exists m, SMSService.getHistory service JNull s = (Err m, s)) /\
  SMSService.getHistory service JUndefined s
  = SMSService.getHistory service (JObj []) s.
Proof.
  split; [| split; [| split; [| split; [| split]]]].
  - intros options recipient message Hr Hm Hf. apply both_truthy in Hf.
    unfold SMSService.sendSMS, bind, lift, throw. rewrite Hr, Hm, Hf. reflexivity.
  - intros messageId Hf. unfold SMSService.getDeliveryStatus, throw.
    rewrite Hf. reflexivity.
  - intros options notifyUrl Hn Hf.
    unfold SMSService.subscribeToDeliveryNotifications, bind, lift, throw.
    rewrite Hn, Hf. reflexivity.
  - intros options [-> | ->]; split; eexists; reflexivity.
  - eexists. reflexivity.
  - reflexivity.
Qed.

(** X22, USSD validation. Each USSD method fails with its own message, and
    without any effect on the state, when a field it requires is absent
    or falsy. *)
Theorem ussd_refuses_incomplete_options (service : USSDService.t) (s : State) :
  (forall options address message,
     Get options "address" = Ok address ->
     Get options "message" = Ok message ->
     truthy address && truthy message = false ->
     USSDService.sendNotification service options s
     = (Err "Address and message are required", s)) /\
  (forall options address message sessionId,
     Get options "address" = Ok address ->
     Get options "message" = Ok message ->
     Get options "sessionId" = Ok sessionId ->
     truthy address && truthy message && truthy sessionId = false ->
     USSDService.handleInbound service options s
     = (Err "Address, message, and sessionId are required", s)) /\
  (forall options notifyUrl keyword,
     Get options "notifyUrl" = Ok notifyUrl ->
     Get options "keyword" = Ok keyword ->
     truthy notifyUrl && truthy keyword = false ->
     USSDService.subscribeToNotifications service options s
     = (Err "Notify URL and keyword are required", s)) /\
  (forall sessionId,
     truthy sessionId = false ->
     USSDService.cancelSession service sessionId s
     = (Err "Session ID is required", s)).
Proof.
  split; [| split; [| split]].
  - intros options address message Ha Hm Hf. apply both_truthy in Hf.
    unfold USSDService.sendNotification, bind, lift, throw.
    rewrite Ha, Hm, Hf. reflexivity.
  - intros options address message sessionId Ha Hm Hs Hf.
    apply all_three_truthy in Hf.
    unfold USSDService.handleInbound, bind, lift, throw.
    rewrite Ha, Hm, Hs, Hf. reflexivity.
  - intros options notifyUrl keyword Hn Hk Hf. apply both_truthy in Hf.
    unfold USSDService.subscribeToNotifications, bind, lift, throw.
    rewrite Hn, Hk, Hf. reflexivity.
  - intros sessionId Hf. unfold USSDService.cancelSession, throw.
    rewrite Hf. reflexivity.
Qed.

(** X24, payment validation. [requestPayment], [checkPaymentStatus],
    [refundPayment] and [subscribeToNotifications] fail with their own
    message, and without any effect on the state, when a field they
    require is absent or falsy; an amount of 0 counts as absent. *)
Theorem payment_refuses_incomplete_options (service : PaymentService.t) (s : State) :
  (forall options amount currency customerMsisdn,
     Get options "amount" = Ok amount ->
     Get options "currency" = Ok currency ->
     Get options "customerMsisdn" = Ok customerMsisdn ->
     truthy amount && truthy currency && truthy customerMsisdn = false ->
     PaymentService.requestPayment service options s
     = (Err "Amount, currency, and customer MSISDN are required", s)) /\
  (forall paymentId,
     truthy paymentId = false ->
     PaymentService.checkPaymentStatus service paymentId s
     = (Err "Payment ID is required", s)) /\
  (forall options paymentId amount,
     Get options "paymentId" = Ok paymentId ->
     Get options "amount" = Ok amount ->
     truthy paymentId && truthy amount = false ->
     PaymentService.refundPayment service options s
     = (Err "Payment ID and amount are required", s)) /\
  (forall options notifyUrl,
     Get options "notifyUrl" = Ok notifyUrl ->
     truthy notifyUrl = false ->
     PaymentService.subscribeToNotifications service options s
     = (Err "Notify URL is required", s)) /\
  (forall options currency customerMsisdn,
     Get options "amount" = Ok (JNum 0) ->
     Get options "currency" = Ok currency ->
     Get options "customerMsisdn" = Ok customerMsisdn ->
     PaymentService.requestPayment service options s
     = (Err "Amount, currency, and customer MSISDN are required", s)).
Proof.
  split; [| split; [| split; [| split]]].
  - intros options amount currency customerMsisdn Ha Hc Hm Hf.
    apply all_three_truthy in Hf.
    unfold PaymentService.requestPayment, bind, lift, throw.
    rewrite Ha, Hc, Hm, Hf. reflexivity.
  - intros paymentId Hf. unfold PaymentService.checkPaymentStatus, throw.
    rewrite Hf. reflexivity.
  - intros options paymentId amount Hp Ha Hf. apply both_truthy in Hf.
    unfold PaymentService.refundPayment, bind, lift, throw.
    rewrite Hp, Ha, Hf. reflexivity.
  - intros options notifyUrl Hn Hf.
    unfold PaymentService.subscribeToNotifications, bind, lift, throw.
    rewrite Hn, Hf. reflexivity.
  - intros options currency customerMsisdn Ha Hc Hm.
    unfold PaymentService.requestPayment, bind, lift, throw.
    rewrite Ha, Hc, Hm. reflexivity.
Qed.

Lemma append_assoc (a b c : string) : (a +:+ b) +:+ c = a +:+ (b +:+ c).
Proof.
  induction a as [| x a IH]; [reflexivity |].
  change ((String x (a +:+ b)) +:+ c = String x (a +:+ (b +:+ c))).
  change (String x ((a +:+ b) +:+ c) = String x (a +:+ (b +:+ c))).
  rewrite IH. reflexivity.
Qed.

Lemma request_url_under (c : Client) (prefix rest : string)
    (params : list (string * JSValue)) (url : string) :
  startsWith (prefix +:+ rest) "/" = true ->
  request_url c (prefix +:+ rest) params = Ok url ->
  starts_with (baseUrl c +:+ prefix) url.
Proof.
  intros Hs. unfold request_url, endpoint_url, starts_with. rewrite Hs.
  destruct (0 <? Z.of_nat (length params)).
  - destruct (append_all params); [| discriminate].
    intros H. injection H as <-.
    eexists. rewrite <- (append_assoc (baseUrl c) prefix rest).
    rewrite append_assoc. reflexivity.
  - intros H. injection H as <-.
    eexists. rewrite <- (append_assoc (baseUrl c) prefix rest). reflexivity.
Qed.

Ltac routed :=
  right; do 2 eexists; split; [| intro; reflexivity]; reflexivity.

Ltac validate options :=
  destruct options; unfold bind, lift, throw, ret; cbn [Get truthy negb orb];
  try rejected;
  repeat match goal with
         | |- context [negb (truthy ?v)] => destruct (truthy v); cbn [negb orb]
         end;
  try rejected; convert_all; try rejected.

Ltac validate_id v :=
  unfold throw, bind, lift; destruct (truthy v); cbn [negb]; try rejected;
  convert_all; try rejected.

Lemma service_call_shape (call : Call) (prefix : string) :
  route call = Some prefix ->
  (exists message, forall s, perform call s = (Err message, s)) \/
  (exists rest options,
     startsWith (prefix +:+ "/" +:+ rest) "/" = true /\
     forall s, perform call s = request (prefix +:+ "/" +:+ rest) options s).
Proof.
  destruct call; cbn [route]; intros Hr; try discriminate;
    injection Hr as <-; cbn [perform].
  - unfold SMSService.sendSMS, post. validate options; routed.
  - unfold SMSService.getDeliveryStatus, get. validate_id messageId. routed.
  - unfold SMSService.getHistory, get. validate options; routed.
  - unfold SMSService.subscribeToDeliveryNotifications, post. validate options.
    routed.
  - unfold USSDService.sendNotification, post. validate options. routed.
  - unfold USSDService.handleInbound, post. validate options. routed.
  - unfold USSDService.subscribeToNotifications, post. validate options.
    routed.
  - unfold USSDService.cancelSession, delete. validate_id sessionId. routed.
  - unfold PaymentService.requestPayment, post. validate options. routed.
  - unfold PaymentService.checkPaymentStatus, get. validate_id paymentId. routed.
  - unfold PaymentService.refundPayment, post. validate options. routed.
  - unfold PaymentService.getTransactionHistory, get. validate options; routed.
  - unfold PaymentService.getAccountBalance, get. routed.
  - unfold PaymentService.subscribeToNotifications, post. validate options.
    routed.
Qed.

(** X18, routing. Once the token is there, a call of a service is refused
    without effect, or fails on a token or a query parameter that has no
    string form, with nothing sent after the token exchange, or sends its
    resource request to a URL under the base URL of the client followed
    by the prefix of that service: "/sms/v1", "/ussd/v1" or
    "/payment/v1". *)
Theorem service_calls_stay_under_their_prefix (call : Call) (prefix : string)
    (s s1 : State) (access_token : JSValue) :
  route call = Some prefix ->
  _getToken s = (Ok access_token, s1) ->
  snd (perform call s) = s \/
  perform call s = (Err cannot_convert, s1) \/
  exists req,
    sent (world (snd (perform call s))) = (sent (world s1) ++ [req])%list /\
    starts_with (baseUrl (self s1) +:+ prefix +:+ "/") (req_url req).
Proof.
  intros Hr Hg.
  destruct (service_call_shape call prefix Hr)
    as [(message & Hc) | (rest & options & Hs & Hc)]; rewrite Hc.
  - left. reflexivity.
  - right.
    destruct (resource_request (self s1) access_token (prefix +:+ "/" +:+ rest)
                options) as [req | m] eqn:Hreq.
    + right. exists req.
      split; [exact (sent_by_request _ _ s s1 access_token req Hg Hreq) |].
      apply resource_request_Ok in Hreq as (url & bearer & Hu & _ & ->).
      cbn [req_url]. rewrite <- (append_assoc prefix "/" rest) in Hu, Hs.
      exact (request_url_under _ _ _ _ _ Hs Hu).
    + left.
      rewrite (request_unprintable _ _ s s1 access_token m Hg Hreq).
      rewrite (resource_request_error _ _ _ _ _ Hreq). reflexivity.
Qed.




(** What [post], [get] and [delete] send for a service, on a valid
    token. *)
Lemma service_post (path : string) (data : JSValue) (s : State) (bearer : string) :
  has_valid_token s ->
  ToString (token (self s)) = Ok bearer ->
  startsWith path "/" = true ->
  truthy data = true ->
  sent (world (snd (post path data no_overrides s))) =
    (sent (world s)
     ++ [{| req_url := baseUrl (self s) +:+ path;
            req_method := "POST";
            req_headers := default_headers bearer;
            req_body := Some (JsonBody data);
            req_timeout := timeout (self s) |}])%list.
Proof.
  intros Hv Hb Hp Hd.
  pose proof (post_sends "POST" path data s bearer Hv Hb
                ltac:(discriminate) ltac:(discriminate)) as (_ & H).
  rewrite Hd, (endpoint_url_rooted _ _ Hp) in H. exact H.
Qed.

Lemma service_get (path : string) (params : list (string * JSValue)) (s : State)
    (bearer url : string) :
  has_valid_token s ->
  ToString (token (self s)) = Ok bearer ->
  request_url (self s) path params = Ok url ->
  sent (world (snd (get path params no_overrides s))) =
    (sent (world s)
     ++ [{| req_url := url;
            req_method := "GET";
            req_headers := default_headers bearer;
            req_body := None;
            req_timeout := timeout (self s) |}])%list.
Proof. intros Hv Hb Hu. apply (get_sends path params s bearer url Hv Hb Hu). Qed.

(** X20, SMS on the wire. On a client with a valid token, [sendSMS] with a
    truthy recipient and message sends one POST to
    [baseUrl/sms/v1/messages] with the cached token; its body addresses
    the recipient as "tel:" followed by the recipient, and names a sender
    only when one is given. [getDeliveryStatus] sends one GET to
    [baseUrl/sms/v1/messages/<id>/deliveryInfos], without body. A
    recipient, a sender or an id that has no string form makes the call
    fail before anything is sent. *)
Theorem sms_requests_on_the_wire (props : list (string * JSValue))
    (messageId : JSValue) (s : State) (bearer : string) :
  has_valid_token s ->
  ToString (token (self s)) = Ok bearer ->
  let recipient := lookup_prop "recipient" props in
  let message := lookup_prop "message" props in
  let sender := lookup_prop "sender" props in
  (truthy recipient = true -> truthy message = true ->
   forall address senderAddress,
     tel recipient = Ok address ->
     (if truthy sender then tel sender = Ok senderAddress
      else senderAddress = JUndefined) ->
     sent (world (snd (SMSService.sendSMS SMSService.new (JObj props) s)))
     = (sent (world s)
        ++ [{| req_url := baseUrl (self s) +:+ "/sms/v1/messages";
               req_method := "POST";
               req_headers := default_headers bearer;
               req_body :=
                 Some (JsonBody
                   (JObj [("outboundSMSMessageRequest",
                           JObj [("address", address);
                                 ("senderAddress", senderAddress);
                                 ("outboundSMSTextMessage",
                                  JObj [("message", message)])])]));
               req_timeout := timeout (self s) |}])%list) /\
  (truthy recipient = true -> truthy message = true ->
   forall m,
     tel recipient = Err m \/ (truthy sender = true /\ tel sender = Err m) ->
     exists e, SMSService.sendSMS SMSService.new (JObj props) s = (Err e, s)) /\
  (truthy messageId = true ->
   forall id,
     ToString messageId = Ok id ->
     sent (world (snd (SMSService.getDeliveryStatus SMSService.new messageId s)))
     = (sent (world s)
        ++ [{| req_url := baseUrl (self s) +:+ "/sms/v1/messages/"
                          +:+ id +:+ "/deliveryInfos";
               req_method := "GET";
               req_headers := default_headers bearer;
               req_body := None;
               req_timeout := timeout (self s) |}])%list) /\
  (truthy messageId = true ->
   forall m,
     ToString messageId = Err m ->
     SMSService.getDeliveryStatus SMSService.new messageId s = (Err m, s)).
Proof.
  intros Hv Hb recipient message sender.
  split; [| split; [| split]].
  - intros Hr Hm address senderAddress Ha Hs.
    unfold SMSService.sendSMS, bind, lift, ret. cbn [Get].
    fold recipient message sender. rewrite Hr, Hm, Ha. cbn [negb orb].
    destruct (truthy sender).
    + rewrite Hs. apply (service_post _ _ s bearer Hv Hb); reflexivity.
    + rewrite Hs. apply (service_post _ _ s bearer Hv Hb); reflexivity.
  - intros Hr Hm m Hfail.
    unfold SMSService.sendSMS, bind, lift, ret. cbn [Get].
    fold recipient message sender. rewrite Hr, Hm. cbn [negb orb].
    destruct Hfail as [Ha | (Hs & Ha)].
    + rewrite Ha. eexists. reflexivity.
    + destruct (tel recipient); [| eexists; reflexivity].
      rewrite Hs, Ha. eexists. reflexivity.
  - intros Hi id Hid. unfold SMSService.getDeliveryStatus, bind, lift.
    rewrite Hi, Hid. cbn [negb].
    apply (service_get _ _ s bearer _ Hv Hb). reflexivity.
  - intros Hi m Hid. unfold SMSService.getDeliveryStatus, bind, lift.
    rewrite Hi, Hid. reflexivity.
Qed.


(** X23, USSD sessions on the wire. On a client with a valid token,
    [handleInbound] with its three required fields sends one POST to
    [baseUrl/ussd/v1/inbound/<sessionId>], whose body ends the session
    only when [endSession] is truthy ([false] otherwise);
    [cancelSession] sends one DELETE to
    [baseUrl/ussd/v1/sessions/<sessionId>], without body. A session id
    that has no string form makes either call fail before anything is
    sent. *)
Theorem ussd_sessions_on_the_wire (props : list (string * JSValue))
    (sessionId : JSValue) (s : State) (bearer : string) :
  has_valid_token s ->
  ToString (token (self s)) = Ok bearer ->
  let address := lookup_prop "address" props in
  let message := lookup_prop "message" props in
  let session := lookup_prop "sessionId" props in
  let endSession := lookup_prop "endSession" props in
  (truthy address = true -> truthy message = true -> truthy session = true ->
   forall id sender,
     ToString session = Ok id ->
     tel address = Ok sender ->
     sent (world (snd (USSDService.handleInbound USSDService.new (JObj props) s)))
     = (sent (world s)
        ++ [{| req_url := baseUrl (self s) +:+ "/ussd/v1/inbound/" +:+ id;
               req_method := "POST";
               req_headers := default_headers bearer;
               req_body :=
                 Some (JsonBody
                   (JObj [("inboundUSSDMessageRequest",
                           JObj [("address", sender);
                                 ("inboundUSSDMessage", JObj [("message", message)]);
                                 ("ussdSessionTermination",
                                  if truthy endSession then endSession
                                  else JBool false)])]));
               req_timeout := timeout (self s) |}])%list) /\
  (truthy address = true -> truthy message = true -> truthy session = true ->
   forall m,
     ToString session = Err m ->
     USSDService.handleInbound USSDService.new (JObj props) s = (Err m, s)) /\
  (truthy sessionId = true ->
   forall id,
     ToString sessionId = Ok id ->
     sent (world (snd (USSDService.cancelSession USSDService.new sessionId s)))
     = (sent (world s)
        ++ [{| req_url := baseUrl (self s) +:+ "/ussd/v1/sessions/" +:+ id;
               req_method := "DELETE";
               req_headers := default_headers bearer;
               req_body := None;
               req_timeout := timeout (self s) |}])%list) /\
  (truthy sessionId = true ->
   forall m,
     ToString sessionId = Err m ->
     USSDService.cancelSession USSDService.new sessionId s = (Err m, s)).
Proof.
  intros Hv Hb address message session endSession.
  split; [| split; [| split]].
  - intros Ha Hm Hs id sender Hid Htel.
    unfold USSDService.handleInbound, bind, lift. cbn [Get].
    fold address message session endSession.
    rewrite Ha, Hm, Hs, Hid, Htel. cbn [negb orb].
    apply (service_post _ _ s bearer Hv Hb); reflexivity.
  - intros Ha Hm Hs m Hid.
    unfold USSDService.handleInbound, bind, lift. cbn [Get].
    fold address message session endSession.
    rewrite Ha, Hm, Hs, Hid. reflexivity.
  - intros Hi id Hid. unfold USSDService.cancelSession, bind, lift.
    rewrite Hi, Hid. cbn [negb].
    pose proof (delete_sends ("/ussd/v1" +:+ "/sessions/" +:+ id) s bearer Hv Hb)
      as (_ & H).
    rewrite endpoint_url_rooted in H by reflexivity. exact H.
  - intros Hi m Hid. unfold USSDService.cancelSession, bind, lift.
    rewrite Hi, Hid. reflexivity.
Qed.

(** X25, payments on the wire. On a client with a valid token,
    [requestPayment] with a truthy amount, currency and customer number
    sends one POST to [baseUrl/payment/v1/payments]; its body carries
    these three as given, the empty string for a missing description, and
    the callback URL, merchant id and order id as they are, absent ones
    included. [refundPayment] sends one POST to
    [baseUrl/payment/v1/payments/<paymentId>/refund], with the reason
    "Customer request" when none is given; a payment id that has no
    string form makes it fail before anything is sent. *)
Theorem payment_requests_on_the_wire (props : list (string * JSValue)) (s : State)
    (bearer : string) :
  has_valid_token s ->
  ToString (token (self s)) = Ok bearer ->
  let amount := lookup_prop "amount" props in
  let currency := lookup_prop "currency" props in
  let customerMsisdn := lookup_prop "customerMsisdn" props in
  let description := lookup_prop "description" props in
  let paymentId := lookup_prop "paymentId" props in
  let reason := lookup_prop "reason" props in
  (truthy amount = true -> truthy currency = true -> truthy customerMsisdn = true ->
   sent (world (snd (PaymentService.requestPayment PaymentService.new (JObj props) s)))
   = (sent (world s)
      ++ [{| req_url := baseUrl (self s) +:+ "/payment/v1/payments";
             req_method := "POST";
             req_headers := default_headers bearer;
             req_body :=
               Some (JsonBody
                 (JObj [("requestPayment",
                         JObj [("amount", amount);
                               ("currency", currency);
                               ("description",
                                if truthy description then description else JStr "");
                               ("customerMsisdn", customerMsisdn);
                               ("callbackUrl", lookup_prop "callbackUrl" props);
                               ("merchantId", lookup_prop "merchantId" props);
                               ("orderId", lookup_prop "orderId" props)])]));
             req_timeout := timeout (self s) |}])%list) /\
  (truthy paymentId = true -> truthy amount = true ->
   forall id,
     ToString paymentId = Ok id ->
     sent (world (snd (PaymentService.refundPayment PaymentService.new (JObj props) s)))
     = (sent (world s)
        ++ [{| req_url := baseUrl (self s) +:+ "/payment/v1/payments/"
                          +:+ id +:+ "/refund";
               req_method := "POST";
               req_headers := default_headers bearer;
               req_body :=
                 Some (JsonBody
                   (JObj [("refundPayment",
                           JObj [("amount", amount);
                                 ("reason",
                                  if truthy reason then reason
                                  else JStr "Customer request")])]));
               req_timeout := timeout (self s) |}])%list) /\
  (truthy paymentId = true -> truthy amount = true ->
   forall m,
     ToString paymentId = Err m ->
     PaymentService.refundPayment PaymentService.new (JObj props) s = (Err m, s)).
Proof.
  intros Hv Hb amount currency customerMsisdn description paymentId reason.
  split; [| split].
  - intros Ha Hc Hm.
    unfold PaymentService.requestPayment, bind, lift. cbn [Get].
    fold amount currency customerMsisdn description.
    rewrite Ha, Hc, Hm. cbn [negb orb].
    apply (service_post _ _ s bearer Hv Hb); reflexivity.
  - intros Hp Ha id Hid.
    unfold PaymentService.refundPayment, bind, lift. cbn [Get].
    fold amount paymentId reason. rewrite Hp, Ha, Hid. cbn [negb orb].
    apply (service_post _ _ s bearer Hv Hb); reflexivity.
  - intros Hp Ha m Hid.
    unfold PaymentService.refundPayment, bind, lift. cbn [Get].
    fold amount paymentId reason. rewrite Hp, Ha, Hid. reflexivity.
Qed.


End Further.

(** * The further properties on concrete runs *)

Lemma constructed_client_is_well_formed_witness :
  constructor demo_config = Ok demo_client /\
  cfg_clientId demo_config = Some (clientId demo_client) /\
  clientId demo_client <> "" /\
  cfg_clientSecret demo_config = Some (clientSecret demo_client) /\
  clientSecret demo_client <> "" /\
  baseUrl demo_client <> "" /\ timeout demo_client <> 0 /\
  cache_empty demo_client.
Proof.
  assert (Hc : constructor demo_config = Ok demo_client) by reflexivity.
  destruct (constructed_client_is_well_formed demo_config demo_client Hc)
    as (H1 & H2 & H3 & H4 & H5 & H6 & _ & _ & H9).
  repeat split; assumption.
Defined.

Lemma createClient_succeeds_iff_witness :
  (exists bundle, createClient demo_config = Ok bundle) /\
  (forall e, createClient missing_secret = Err e -> ConfigurationError e) /\
  createClient missing_secret = Err "Client ID and Client Secret are required".
Proof.
  destruct (createClient_succeeds_iff demo_config) as ((_ & H1) & _ & _).
  destruct (createClient_succeeds_iff missing_secret) as (_ & _ & H3).
  split; [| split; [exact H3 | reflexivity]].
  apply H1. exists "my-id", "my-secret".
  repeat split; try reflexivity; discriminate.
Defined.

Lemma request_network_trace_witness :
  (has_valid_token (warm_state [receipt]) /\
   exists req,
     sent (world (snd (@request plain_engine "/sms/v1/messages" no_options
                         (warm_state [receipt])))) = [req] /\
     req_url req = "https://api.orange-sonatel.com/sms/v1/messages" /\
     req_headers req !! "Authorization" = Some "Bearer abc") /\
  (@_getToken plain_engine (fresh_state [unauthorized])
   = (Err "Failed to get authentication token: Authentication failed: 401 Unauthorized",
      snd (@_getToken plain_engine (fresh_state [unauthorized]))) /\
   sent (world (snd (@request plain_engine "/sms/v1/messages" no_options
                       (fresh_state [unauthorized]))))
   = [token_request demo_client]) /\
  (~ has_valid_token (fresh_state [grant 3600; receipt]) /\
   exists req,
     sent (world (snd (@request plain_engine "/sms/v1/messages" no_options
                         (fresh_state [grant 3600; receipt]))))
     = [token_request demo_client; req] /\
     req_headers req !! "Authorization" = Some "Bearer abc") /\
  (@request plain_engine "/sms/v1/messages" no_options
     (fresh_state [opaque_token_grant; receipt])
   = (Err "Cannot convert object to primitive value",
      snd (@_getToken plain_engine (fresh_state [opaque_token_grant; receipt]))) /\
   sent (world (snd (@_getToken plain_engine
                       (fresh_state [opaque_token_grant; receipt]))))
   = [token_request demo_client]).
Proof.
  pose proof (warm_state_valid [receipt]) as Hw.
  pose proof (fresh_state_invalid [grant 3600; receipt]) as Hf.
  assert (He : @_getToken plain_engine (fresh_state [unauthorized])
               = (Err "Failed to get authentication token: Authentication failed: 401 Unauthorized",
                  snd (@_getToken plain_engine (fresh_state [unauthorized]))))
    by by_computation.
  assert (Hg : @_getToken plain_engine (fresh_state [grant 3600; receipt])
               = (Ok (JStr "abc"),
                  snd (@_getToken plain_engine (fresh_state [grant 3600; receipt]))))
    by by_computation.
  assert (Ho : @_getToken plain_engine (fresh_state [opaque_token_grant; receipt])
               = (Ok unconvertible,
                  snd (@_getToken plain_engine
                         (fresh_state [opaque_token_grant; receipt]))))
    by by_computation.
  destruct (@request_network_trace plain_engine "/sms/v1/messages" no_options
              (warm_state [receipt])) as (H1 & _ & _ & _).
  destruct (@request_network_trace plain_engine "/sms/v1/messages" no_options
              (fresh_state [unauthorized])) as (_ & H2 & _ & _).
  destruct (@request_network_trace plain_engine "/sms/v1/messages" no_options
              (fresh_state [grant 3600; receipt])) as (_ & _ & H3 & _).
  destruct (@request_network_trace plain_engine "/sms/v1/messages" no_options
              (fresh_state [opaque_token_grant; receipt])) as (_ & _ & _ & H4).
  split; [split; [exact Hw |] |].
  { eexists. split; [apply (H1 Hw); by_computation |]. split; by_computation. }
  split; [split; [exact He | exact (H2 _ _ He)] |].
  split; [split; [exact Hf |] |].
  { eexists. split; [apply (H3 Hf _ _ _ Hg); by_computation |]. by_computation. }
  split; [| by_computation].
  apply (H4 _ _ cannot_convert Ho). by_computation.
Defined.

Lemma response_never_touches_cache_witness :
  has_valid_token (warm_state [unauthorized]) /\
  fst (@request plain_engine "/sms/v1/messages" no_options (warm_state [unauthorized]))
  = Err "API request failed: Request failed: 401 Unauthorized" /\
  self (snd (@request plain_engine "/sms/v1/messages" no_options
               (warm_state [unauthorized])))
  = self (warm_state [unauthorized]).
Proof.
  pose proof (warm_state_valid [unauthorized]) as Hw.
  destruct (@response_never_touches_cache plain_engine "/sms/v1/messages"
              no_options (warm_state [unauthorized])) as (_ & H).
  split; [exact Hw |]. split; [by_computation | exact (H Hw)].
Defined.

Lemma request_adds_leading_slash_witness :
  startsWith "sms/v1/messages" "/" = false /\
  @request plain_engine "sms/v1/messages" no_options (warm_state [receipt])
  = @request plain_engine ("/" +:+ "sms/v1/messages") no_options (warm_state [receipt]).
Proof.
  split; [reflexivity |].
  apply (@request_adds_leading_slash plain_engine). reflexivity.
Defined.

Lemma sent_on_warm_state (endpoint : string) (options : Options) :
  (exists req,
     @resource_request plain_engine (self (warm_state [receipt])) (JStr "abc")
       endpoint options = Ok req) ->
  exists req,
    sent (world (snd (@request plain_engine endpoint options (warm_state [receipt]))))
    = (sent (world (snd (@_getToken plain_engine (warm_state [receipt])))) ++ [req])%list.
Proof.
  intros (req & Hreq). exists req.
  apply (@sent_by_request plain_engine endpoint options (warm_state [receipt])
           (snd (@_getToken plain_engine (warm_state [receipt]))) (JStr "abc") req);
    [by_computation | exact Hreq].
Qed.

Lemma request_body_rule_witness :
  @_getToken plain_engine (warm_state [receipt])
  = (Ok (JStr "abc"), snd (@_getToken plain_engine (warm_state [receipt]))) /\
  (exists req,
     sent (world (snd (@request plain_engine "/x" custom_headers (warm_state [receipt]))))
     = [req] /\
     req_method req = "POST" /\
     req_body req = Some (JsonBody (JObj [("message", JStr "hi")]))) /\
  (exists req,
     sent (world (snd (@request plain_engine "/x" data_options (warm_state [receipt]))))
     = [req] /\
     req_method req = "GET" /\ req_body req = None) /\
  (exists req,
     sent (world (snd (@request plain_engine "/x" undefined_options
                         (warm_state [receipt]))))
     = [req] /\
     req_method req = "GET" /\ req_body req = None).
Proof.
  assert (Hg : @_getToken plain_engine (warm_state [receipt])
               = (Ok (JStr "abc"), snd (@_getToken plain_engine (warm_state [receipt]))))
    by by_computation.
  split; [exact Hg |]. split; [| split].
  - destruct (sent_on_warm_state "/x" custom_headers) as (req & Hs);
      [eexists; by_computation |].
    destruct (@request_body_rule plain_engine "/x" custom_headers _ _ _ req Hg Hs)
      as (_ & Hm & _ & _ & Hb).
    exists req. split; [exact Hs |].
    assert (Hmeth : req_method req = "POST") by (apply Hm; [reflexivity | discriminate]).
    split; [exact Hmeth |].
    apply Hb; [rewrite Hmeth; discriminate | reflexivity].
  - destruct (sent_on_warm_state "/x" data_options) as (req & Hs);
      [eexists; by_computation |].
    destruct (@request_body_rule plain_engine "/x" data_options _ _ _ req Hg Hs)
      as (Hm & _ & Hb & _).
    exists req. split; [exact Hs |].
    assert (Hmeth : req_method req = "GET") by (apply Hm; left; reflexivity).
    split; [exact Hmeth | exact (Hb Hmeth)].
  - destruct (sent_on_warm_state "/x" undefined_options) as (req & Hs);
      [eexists; by_computation |].
    destruct (@request_body_rule plain_engine "/x" undefined_options _ _ _ req Hg Hs)
      as (Hm & _ & _ & Hb & _).
    exists req. split; [exact Hs |].
    split; [apply Hm; right; left; reflexivity | apply Hb; reflexivity].
Defined.

Lemma json_content_type_may_carry_parameters_witness :
  content_type charset_response
  = Some ("" +:+ "application/json" +:+ "; charset=utf-8") /\
  fst (@request plain_engine "/sms/v1/messages" no_options
         (warm_state [resolved charset_response]))
  = Ok (JObj [("delivered", JBool true)]).
Proof.
  split; [reflexivity |].
  assert (Hs : exists req,
             sent (world (snd (@request plain_engine "/sms/v1/messages" no_options
                                 (warm_state [resolved charset_response]))))
             = (sent (world (snd (@_getToken plain_engine
                                    (warm_state [resolved charset_response]))))
                ++ [req])%list)
    by (eexists; by_computation).
  destruct Hs as (req & Hs).
  apply (@json_content_type_may_carry_parameters plain_engine "/sms/v1/messages"
           no_options (warm_state [resolved charset_response])
           (snd (@_getToken plain_engine (warm_state [resolved charset_response])))
           (JStr "abc") req charset_response "" "; charset=utf-8");
    first [exact Hs | by_computation].
Defined.

Lemma token_lifetime_window_witness :
  ~ has_valid_token (fresh_state [grant 3600]) /\
  Z.abs (now (world (snd (@_getToken plain_engine (fresh_state [grant 3600]))))
         + 3600 * 1000) <= max_time /\
  forall ms : N,
    has_valid_token (idle ms (snd (@_getToken plain_engine (fresh_state [grant 3600]))))
    <-> Z.of_N ms < 3600 * 1000.
Proof.
  pose proof (fresh_state_invalid [grant 3600]) as Hf.
  assert (Hr : Z.abs (now (world (snd (@_getToken plain_engine
                                         (fresh_state [grant 3600]))))
                      + 3600 * 1000) <= max_time)
    by (vm_compute; discriminate).
  split; [exact Hf |]. split; [exact Hr |].
  exact (@token_lifetime_window plain_engine (fresh_state [grant 3600])
           (json_response 200 "OK" (grant_body 3600)) (grant_body 3600)
           (JStr "abc") (JNum 3600) 3600 Hf eq_refl eq_refl eq_refl eq_refl
           eq_refl eq_refl eq_refl Hr).
Defined.


Lemma shorthands_send_one_request_witness :
  has_valid_token (warm_state [receipt]) /\
  (exists req,
     sent (world (snd (@post plain_engine "/sms/v1/messages" (JNum 0) no_overrides
                         (warm_state [receipt])))) = [req] /\
     req_method req = "POST" /\ req_body req = None) /\
  (exists req,
     sent (world (snd (@get plain_engine "/sms/v1/messages" [("page", JNum 2)]
                         no_overrides (warm_state [receipt])))) = [req] /\
     req_method req = "GET" /\
     req_url req = "https://api.orange-sonatel.com/sms/v1/messages?page=2").
Proof.
  pose proof (warm_state_valid [receipt]) as Hw.
  destruct (@shorthands_send_one_request plain_engine "/sms/v1/messages"
              [("page", JNum 2)] (JNum 0) (warm_state [receipt]) "abc" Hw eq_refl)
    as (Hget & _ & Hpost & _).
  split; [exact Hw |]. split.
  - eexists. split; [exact Hpost |]. split; reflexivity.
  - eexists. split; [apply Hget; by_computation |]. split; reflexivity.
Defined.

Lemma options_override_shorthands_witness :
  @_getToken plain_engine (warm_state [receipt])
  = (Ok (JStr "abc"), snd (@_getToken plain_engine (warm_state [receipt]))) /\
  (exists by_get by_post,
     sent (world (snd (@get plain_engine "/x" [("page", JNum 1)] patch_options
                         (warm_state [receipt])))) = [by_get] /\
     sent (world (snd (@post plain_engine "/x" JNull patch_options
                         (warm_state [receipt])))) = [by_post] /\
     req_method by_get = "PATCH" /\ req_method by_post = "PATCH" /\
     req_url by_get = "https://api.orange-sonatel.com/x?page=2") /\
  (exists by_post,
     sent (world (snd (@post plain_engine "/x" (JStr "body") undefined_options
                         (warm_state [receipt])))) = [by_post] /\
     req_method by_post = "GET" /\ req_body by_post = None) /\
  (exists by_post,
     sent (world (snd (@post plain_engine "/x" (JStr "body") data_options
                         (warm_state [receipt])))) = [by_post] /\
     req_body by_post = Some (JsonBody (JObj [("message", JStr "hi")]))).
Proof.
  assert (Hg : @_getToken plain_engine (warm_state [receipt])
               = (Ok (JStr "abc"), snd (@_getToken plain_engine (warm_state [receipt]))))
    by by_computation.
  split; [exact Hg |]. split; [| split].
  - destruct (@options_override_shorthands plain_engine "/x" [("page", JNum 1)]
                JNull patch_options _ _ _ "abc"
                "https://api.orange-sonatel.com/x?page=2"
                "https://api.orange-sonatel.com/x?page=2" Hg eq_refl eq_refl eq_refl)
      as (rg & rp & ru & rd & Hsg & Hsp & _ & _ & Hm & _ & (Hu & _) & _).
    destruct (Hm "PATCH" eq_refl ltac:(discriminate)) as (Hmg & Hmp & _ & _).
    exists rg, rp. repeat split; assumption.
  - destruct (@options_override_shorthands plain_engine "/x" []
                (JStr "body") undefined_options _ _ _ "abc"
                "https://api.orange-sonatel.com/x"
                "https://api.orange-sonatel.com/x" Hg eq_refl eq_refl eq_refl)
      as (rg & rp & ru & rd & _ & Hsp & _ & _ & _ & He & _ & _).
    destruct (He (or_intror eq_refl)) as (H1 & H2 & _).
    exists rp. repeat split; assumption.
  - destruct (@options_override_shorthands plain_engine "/x" []
                (JStr "body") data_options _ _ _ "abc"
                "https://api.orange-sonatel.com/x"
                "https://api.orange-sonatel.com/x" Hg eq_refl eq_refl eq_refl)
      as (rg & rp & ru & rd & _ & Hsp & _ & _ & _ & _ & _ & Hd & _).
    destruct (Hd eq_refl _ eq_refl eq_refl) as (H1 & _).
    exists rp. split; assumption.
Defined.

Lemma quiet_session_prints_nothing_witness :
  debug (self (muted (fresh_state [grant 3600; receipt; receipt]))) = false /\
  fst (@session plain_engine demo_session
         (muted (fresh_state [grant 3600; receipt; receipt])))
  = [Ok (JObj [("delivered", JBool true)]); Ok (JObj [("delivered", JBool true)]);
     Err "Session ID is required"] /\
  console (world (snd (@session plain_engine demo_session
                         (muted (fresh_state [grant 3600; receipt; receipt])))))
  = [].
Proof.
  split; [reflexivity |]. split; [by_computation |].
  apply (@quiet_session_prints_nothing plain_engine demo_session
           (muted (fresh_state [grant 3600; receipt; receipt]))).
  reflexivity.
Defined.

Lemma muted_same_but_debug (s : State) : same_but_debug s (muted s).
Proof. repeat split. Qed.

Lemma debug_flag_changes_only_the_console_witness :
  same_but_debug (fresh_state [grant 3600; receipt; receipt])
    (muted (fresh_state [grant 3600; receipt; receipt])) /\
  fst (@session plain_engine demo_session
         (muted (fresh_state [grant 3600; receipt; receipt])))
  = fst (@session plain_engine demo_session
           (fresh_state [grant 3600; receipt; receipt])) /\
  same_but_debug
    (snd (@session plain_engine demo_session
            (fresh_state [grant 3600; receipt; receipt])))
    (snd (@session plain_engine demo_session
            (muted (fresh_state [grant 3600; receipt; receipt])))).
Proof.
  pose proof (muted_same_but_debug (fresh_state [grant 3600; receipt; receipt])) as H.
  split; [exact H |].
  exact (@debug_flag_changes_only_the_console plain_engine demo_session _ _ H).
Defined.

Lemma failed_call_kinds_witness :
  @perform plain_engine (SmsSendSMS sms_options) (fresh_state [opaque_token_grant])
  = (Err cannot_convert,
     snd (@_getToken plain_engine (fresh_state [opaque_token_grant]))) /\
  let s := fresh_state [opaque_token_grant] in
  let s' := snd (@_getToken plain_engine (fresh_state [opaque_token_grant])) in
  (s' = s \/
   (starts_with "Failed to get authentication token: " cannot_convert /\
    (exists stored, self s' = with_token stored (self s)) /\
    sent (world s') = (sent (world s) ++ [token_request (self s)])%list) \/
   (cannot_convert = cannot_convert /\
    exists access_token, @_getToken plain_engine s = (Ok access_token, s')) \/
   (starts_with "API request failed: " cannot_convert /\
    exists access_token s1 req,
      @_getToken plain_engine s = (Ok access_token, s1) /\
      self s' = self s1 /\
      sent (world s') = (sent (world s1) ++ [req])%list)).
Proof.
  assert (Hp : @perform plain_engine (SmsSendSMS sms_options)
                 (fresh_state [opaque_token_grant])
               = (Err cannot_convert,
                  snd (@_getToken plain_engine (fresh_state [opaque_token_grant]))))
    by by_computation.
  split; [exact Hp |].
  exact (@failed_call_kinds plain_engine _ _ _ _ Hp).
Defined.

Lemma valid_token_serves_every_call_witness :
  has_valid_token (warm_state [receipt]) /\
  (self (snd (@perform plain_engine PayGetAccountBalance (warm_state [receipt])))
   = self (warm_state [receipt]) /\
   exists req,
     sent (world (snd (@perform plain_engine PayGetAccountBalance
                         (warm_state [receipt])))) = [req] /\
     req_headers req = default_headers "abc") /\
  (exists req,
     sent (world (snd (@perform plain_engine (ApiRequest "/x" own_authorization)
                         (warm_state [receipt])))) = [req] /\
     req_headers req !! "Authorization" = Some "none").
Proof.
  pose proof (warm_state_valid [receipt]) as Hw.
  split; [exact Hw |]. split.
  - destruct (@valid_token_serves_every_call plain_engine PayGetAccountBalance _ Hw)
      as (Hself & [Hnone | (req & bearer & Hs & Hb & Hh & _)] & _).
    + vm_compute in Hnone. discriminate Hnone.
    + split; [exact Hself |]. exists req. split; [exact Hs |].
      injection Hb as <-. rewrite Hh. by_computation.
  - destruct (@valid_token_serves_every_call plain_engine
                (ApiRequest "/x" own_authorization) _ Hw)
      as (_ & [Hnone | (req & bearer & Hs & Hb & Hh & _)] & _).
    + vm_compute in Hnone. discriminate Hnone.
    + exists req. split; [exact Hs |]. rewrite Hh. by_computation.
Defined.

Lemma service_calls_stay_under_their_prefix_witness :
  route (UssdHandleInbound inbound_options) = Some "/ussd/v1" /\
  @_getToken plain_engine (warm_state [receipt])
  = (Ok (JStr "abc"), snd (@_getToken plain_engine (warm_state [receipt]))) /\
  exists req,
    sent (world (snd (@perform plain_engine (UssdHandleInbound inbound_options)
                        (warm_state [receipt]))))
    = (sent (world (snd (@_getToken plain_engine (warm_state [receipt]))))
       ++ [req])%list /\
    starts_with
      (baseUrl (self (snd (@_getToken plain_engine (warm_state [receipt]))))
       +:+ "/ussd/v1" +:+ "/")
      (req_url req).
Proof.
  assert (Hg : @_getToken plain_engine (warm_state [receipt])
               = (Ok (JStr "abc"), snd (@_getToken plain_engine (warm_state [receipt]))))
    by by_computation.
  split; [reflexivity |]. split; [exact Hg |].
  destruct (@service_calls_stay_under_their_prefix plain_engine
              (UssdHandleInbound inbound_options) "/ussd/v1" _ _ _ eq_refl Hg)
    as [Hsame | [Hfail | Hsent]].
  - apply (f_equal (fun st => length (sent (world st)))) in Hsame.
    vm_compute in Hsame. discriminate Hsame.
  - apply (f_equal fst) in Hfail. vm_compute in Hfail. discriminate Hfail.
  - exact Hsent.
Defined.

Lemma sms_refuses_incomplete_options_witness :
  @SMSService.sendSMS plain_engine SMSService.new
    (JObj [("recipient", JStr ""); ("message", JStr "Hello")]) (fresh_state [])
  = (Err "Recipient and message are required", fresh_state []) /\
  @SMSService.getDeliveryStatus plain_engine SMSService.new (JStr "") (fresh_state [])
  = (Err "Message ID is required", fresh_state []) /\
  @SMSService.subscribeToDeliveryNotifications plain_engine SMSService.new (JObj [])
    (fresh_state [])
  = (Err "Notify URL is required", fresh_state []) /\
  (exists m, @SMSService.sendSMS plain_engine SMSService.new JUndefined (fresh_state [])
             = (Err m, fresh_state [])).
Proof.
  destruct (@sms_refuses_incomplete_options plain_engine SMSService.new (fresh_state []))
    as (H1 & H2 & H3 & H4 & _).
  split; [eapply H1; reflexivity |].
  split; [eapply H2; reflexivity |].
  split; [eapply H3; reflexivity |].
  exact (proj1 (H4 JUndefined (or_introl eq_refl))).
Defined.

Lemma ussd_refuses_incomplete_options_witness :
  @USSDService.sendNotification plain_engine USSDService.new
    (JObj [("address", JStr "221700000000")]) (fresh_state [])
  = (Err "Address and message are required", fresh_state []) /\
  @USSDService.handleInbound plain_engine USSDService.new
    (JObj [("address", JStr "221700000000"); ("message", JStr "1")]) (fresh_state [])
  = (Err "Address, message, and sessionId are required", fresh_state []) /\
  @USSDService.subscribeToNotifications plain_engine USSDService.new
    (JObj [("notifyUrl", JStr "https://example.org/hook")]) (fresh_state [])
  = (Err "Notify URL and keyword are required", fresh_state []) /\
  @USSDService.cancelSession plain_engine USSDService.new JUndefined (fresh_state [])
  = (Err "Session ID is required", fresh_state []).
Proof.
  destruct (@ussd_refuses_incomplete_options plain_engine USSDService.new
              (fresh_state [])) as (H1 & H2 & H3 & H4).
  split; [eapply H1; reflexivity |].
  split; [eapply H2; reflexivity |].
  split; [eapply H3; reflexivity |].
  eapply H4; reflexivity.
Defined.

Lemma payment_refuses_incomplete_options_witness :
  @PaymentService.requestPayment plain_engine PaymentService.new
    (JObj [("amount", JStr "1000"); ("currency", JStr "XOF")]) (fresh_state [])
  = (Err "Amount, currency, and customer MSISDN are required", fresh_state []) /\
  @PaymentService.checkPaymentStatus plain_engine PaymentService.new JNull
    (fresh_state [])
  = (Err "Payment ID is required", fresh_state []) /\
  @PaymentService.refundPayment plain_engine PaymentService.new
    (JObj [("paymentId", JStr "p-7")]) (fresh_state [])
  = (Err "Payment ID and amount are required", fresh_state []) /\
  @PaymentService.subscribeToNotifications plain_engine PaymentService.new (JObj [])
    (fresh_state [])
  = (Err "Notify URL is required", fresh_state []) /\
  @PaymentService.requestPayment plain_engine PaymentService.new
    (JObj [("amount", JNum 0); ("currency", JStr "XOF");
           ("customerMsisdn", JStr "221700000000")]) (fresh_state [])
  = (Err "Amount, currency, and customer MSISDN are required", fresh_state []).
Proof.
  destruct (@payment_refuses_incomplete_options plain_engine PaymentService.new
              (fresh_state [])) as (H1 & H2 & H3 & H4 & H5).
  split; [eapply H1; reflexivity |].
  split; [eapply H2; reflexivity |].
  split; [eapply H3; reflexivity |].
  split; [eapply H4; reflexivity |].
  eapply H5; reflexivity.
Defined.

Lemma sms_requests_on_the_wire_witness :
  has_valid_token (warm_state [receipt]) /\
  (exists req,
     sent (world (snd (@SMSService.sendSMS plain_engine SMSService.new sms_options
                         (warm_state [receipt])))) = [req] /\
     req_url req = "https://api.orange-sonatel.com/sms/v1/messages" /\
     req_method req = "POST" /\
     req_headers req !! "Authorization" = Some "Bearer abc" /\
     req_body req =
       Some (JsonBody
         (JObj [("outboundSMSMessageRequest",
                 JObj [("address", JStr "tel:221700000000");
                       ("senderAddress", JUndefined);
                       ("outboundSMSTextMessage",
                        JObj [("message", JStr "Hello")])])]))) /\
  (exists req,
     sent (world (snd (@SMSService.getDeliveryStatus plain_engine SMSService.new
                         (JNum 17) (warm_state [receipt])))) = [req] /\
     req_url req
     = "https://api.orange-sonatel.com/sms/v1/messages/17/deliveryInfos" /\
     req_method req = "GET" /\ req_body req = None) /\
  @SMSService.getDeliveryStatus plain_engine SMSService.new unconvertible
    (warm_state [receipt])
  = (Err "Cannot convert object to primitive value", warm_state [receipt]).
Proof.
  pose proof (warm_state_valid [receipt]) as Hw.
  destruct (@sms_requests_on_the_wire plain_engine
              [("recipient", JStr "221700000000"); ("message", JStr "Hello")]
              (JNum 17) (warm_state [receipt]) "abc" Hw eq_refl)
    as (H1 & _ & H2 & _).
  destruct (@sms_requests_on_the_wire plain_engine [] unconvertible
              (warm_state [receipt]) "abc" Hw eq_refl)
    as (_ & _ & _ & H3).
  split; [exact Hw |]. split; [| split].
  - eexists. split; [exact (H1 eq_refl eq_refl _ _ eq_refl eq_refl) |].
    repeat split; by_computation.
  - eexists. split; [exact (H2 eq_refl _ eq_refl) |]. repeat split; by_computation.
  - exact (H3 eq_refl _ eq_refl).
Defined.


Lemma ussd_sessions_on_the_wire_witness :
  has_valid_token (warm_state [receipt]) /\
  (exists req,
     sent (world (snd (@USSDService.handleInbound plain_engine USSDService.new
                         inbound_options (warm_state [receipt])))) = [req] /\
     req_url req = "https://api.orange-sonatel.com/ussd/v1/inbound/s-42" /\
     req_method req = "POST" /\
     req_body req =
       Some (JsonBody
         (JObj [("inboundUSSDMessageRequest",
                 JObj [("address", JStr "tel:221700000000");
                       ("inboundUSSDMessage", JObj [("message", JStr "1")]);
                       ("ussdSessionTermination", JBool false)])]))) /\
  (exists req,
     sent (world (snd (@USSDService.cancelSession plain_engine USSDService.new
                         (JStr "s-42") (warm_state [receipt])))) = [req] /\
     req_url req = "https://api.orange-sonatel.com/ussd/v1/sessions/s-42" /\
     req_method req = "DELETE" /\ req_body req = None).
Proof.
  pose proof (warm_state_valid [receipt]) as Hw.
  destruct (@ussd_sessions_on_the_wire plain_engine
              [("address", JStr "221700000000"); ("message", JStr "1");
               ("sessionId", JStr "s-42")]
              (JStr "s-42") (warm_state [receipt]) "abc" Hw eq_refl)
    as (H1 & _ & H2 & _).
  split; [exact Hw |]. split.
  - eexists. split; [exact (H1 eq_refl eq_refl eq_refl _ _ eq_refl eq_refl) |].
    repeat split; by_computation.
  - eexists. split; [exact (H2 eq_refl _ eq_refl) |]. repeat split; by_computation.
Defined.

Lemma payment_requests_on_the_wire_witness :
  has_valid_token (warm_state [receipt]) /\
  (exists req,
     sent (world (snd (@PaymentService.requestPayment plain_engine PaymentService.new
                         payment_options (warm_state [receipt])))) = [req] /\
     req_url req = "https://api.orange-sonatel.com/payment/v1/payments" /\
     req_method req = "POST" /\
     req_body req =
       Some (JsonBody
         (JObj [("requestPayment",
                 JObj [("amount", JStr "1000"); ("currency", JStr "XOF");
                       ("description", JStr "");
                       ("customerMsisdn", JStr "221700000000");
                       ("callbackUrl", JUndefined); ("merchantId", JUndefined);
                       ("orderId", JUndefined)])]))) /\
  (exists req,
     sent (world (snd (@PaymentService.refundPayment plain_engine PaymentService.new
                         payment_options (warm_state [receipt])))) = [req] /\
     req_url req = "https://api.orange-sonatel.com/payment/v1/payments/p-7/refund" /\
     req_body req =
       Some (JsonBody
         (JObj [("refundPayment",
                 JObj [("amount", JStr "1000");
                       ("reason", JStr "Customer request")])]))).
Proof.
  pose proof (warm_state_valid [receipt]) as Hw.
  destruct (@payment_requests_on_the_wire plain_engine
              [("amount", JStr "1000"); ("currency", JStr "XOF");
               ("customerMsisdn", JStr "221700000000"); ("paymentId", JStr "p-7")]
              (warm_state [receipt]) "abc" Hw eq_refl) as (H1 & H2 & _).
  split; [exact Hw |]. split.
  - eexists. split; [exact (H1 eq_refl eq_refl eq_refl) |].
    repeat split; by_computation.
  - eexists. split; [exact (H2 eq_refl eq_refl _ eq_refl) |].
    repeat split; by_computation.
Defined.

